(** * AR lipstick try-on: the landmark-to-mask compositing pipeline

    A shallow embedding of [script.js]: the [ColorUtils] helpers, the
    [ARLipstickApp] per-frame render ([processFaceMeshResults],
    [drawLipstick], [drawLipContour], [selectPresetColor],
    [resetToNatural]), the [PerformanceMonitor] counter, and the part of
    the HTML Canvas 2D drawing model those methods rely on.

    Conventions.
    - JavaScript numbers that hold integers are [Z] (wrapped in [number] where
      [NaN] can arise); real-valued quantities (normalised landmark
      coordinates, opacity, colour channels, times) are exact rationals [Q].
      The rounding of floating-point arithmetic and of the 8-bit pixel store
      is left out: where it matters, a statement says for which values the
      exact result is the stored one.
    - Strings are [string]s of 8-bit characters.
    - A method that may throw returns a [completion]: the state it leaves
      behind together with the exception, if any.
    - What the browser decides and the source does not (the Gaussian blur,
      the coverage of a pixel that an edge of the path passes through and
      the tolerance of that test, the colour notations other than
      hexadecimal) is a [Platform], a parameter of every drawing
      operation. *)

From Stdlib Require Import ZArith NArith QArith Qround Lqa Lia Bool List Ascii String.
Import ListNotations.

Local Open Scope Z_scope.

(** ** JavaScript primitives used by the source *)

Module JS.

(** An integer-valued JavaScript number, or [NaN]. *)
Inductive number : Type :=
| NaN
| Num (z : Z).

(** [ToInt32]: wrap-around into the signed 32-bit range; [NaN] becomes 0. *)
Definition ToInt32 (n : number) : Z :=
  match n with
  | NaN => 0
  | Num z => (z + 2 ^ 31) mod 2 ^ 32 - 2 ^ 31
  end.

(** [a << k]: both operands go through the 32-bit conversions, the shift
    count is taken modulo 32, and the result is again a 32-bit integer. *)
Definition shl (a : number) (k : Z) : number :=
  Num (ToInt32 (Num (Z.shiftl (ToInt32 a) (k mod 32)))).

(** Numeric [+]. *)
Definition add (a b : number) : number :=
  match a, b with
  | Num x, Num y => Num (x + y)
  | _, _ => NaN
  end.

Definition is_digit (c : ascii) : bool :=
  let n := N_of_ascii c in ((48 <=? n) && (n <=? 57))%N.

Definition is_lower_hex (c : ascii) : bool :=
  let n := N_of_ascii c in ((97 <=? n) && (n <=? 102))%N.

Definition is_upper_hex (c : ascii) : bool :=
  let n := N_of_ascii c in ((65 <=? n) && (n <=? 70))%N.

(** The character class [[a-f\d]] under the [i] flag. *)
Definition is_hex (c : ascii) : bool :=
  is_digit c || is_lower_hex c || is_upper_hex c.

(** Value of a hexadecimal digit. *)
Definition hex_value (c : ascii) : option Z :=
  let n := Z.of_N (N_of_ascii c) in
  if is_digit c then Some (n - 48)
  else if is_lower_hex c then Some (n - 87)
  else if is_upper_hex c then Some (n - 55)
  else None.

(** The digit characters [Number.prototype.toString] produces. *)
Definition digit_char (d : Z) : ascii :=
  if d <? 10 then ascii_of_N (Z.to_N (48 + d)) else ascii_of_N (Z.to_N (87 + d)).

Fixpoint to_hex_digits (fuel : nat) (n : Z) (acc : string) : string :=
  match fuel with
  | O => acc
  | S fuel' =>
      let acc' := String (digit_char (n mod 16)) acc in
      if n / 16 =? 0 then acc' else to_hex_digits fuel' (n / 16) acc'
  end.

(** [n.toString(16)]. One hexadecimal digit covers four bits, so the bit
    length of [n] is fuel enough. *)
Definition toString16 (n : number) : string :=
  match n with
  | NaN => "NaN"%string
  | Num z =>
      let digits m := to_hex_digits (S (Z.to_nat (Z.log2 m))) m EmptyString in
      if z <? 0 then String "-" (digits (- z)) else digits z
  end.

(** [s.slice(k)] for a non-negative [k]. *)
Fixpoint slice (s : string) (k : nat) : string :=
  match k, s with
  | O, _ => s
  | S _, EmptyString => EmptyString
  | S k', String _ s' => slice s' k'
  end.

Definition is_whitespace (c : ascii) : bool :=
  let n := N_of_ascii c in ((n =? 32) || ((9 <=? n) && (n <=? 13)))%N.

Fixpoint trim_start (s : string) : string :=
  match s with
  | String c s' => if is_whitespace c then trim_start s' else s
  | EmptyString => s
  end.

(** Longest prefix of hexadecimal digits, accumulated most significant
    digit first; [None] when there is no digit at all. *)
Fixpoint hex_prefix (s : string) (acc : option Z) : option Z :=
  match s with
  | String c s' =>
      match hex_value c with
      | Some d => hex_prefix s' (Some (16 * match acc with Some a => a | None => 0 end + d))
      | None => acc
      end
  | EmptyString => acc
  end.

(** [parseInt(s, 16)]: leading white space, an optional sign, an optional
    [0x] or [0X], then the longest run of digits; [NaN] without digits. *)
Definition parseInt16 (s : string) : number :=
  let s1 := trim_start s in
  let '(sign, s2) :=
    match s1 with
    | String "-" r => (-1, r)
    | String "+" r => (1, r)
    | _ => (1, s1)
    end in
  let s3 :=
    match s2 with
    | String "0" (String "x" r) => r
    | String "0" (String "X" r) => r
    | _ => s2
    end in
  match hex_prefix s3 None with
  | Some v => Num (sign * v)
  | None => NaN
  end.

(** ASCII [toLowerCase]. *)
Definition lower_char (c : ascii) : ascii :=
  let n := N_of_ascii c in
  if ((65 <=? n) && (n <=? 90))%N then ascii_of_N (n + 32) else c.

Fixpoint toLowerCase (s : string) : string :=
  match s with
  | EmptyString => EmptyString
  | String c s' => String (lower_char c) (toLowerCase s')
  end.

(** Exceptions the modelled code can raise. *)
Inductive Exn : Type :=
| TypeError            (* reading a property of [undefined] *)
| InvalidStateError.   (* [drawImage] from a zero-sized canvas *)

Definition exn_name (e : Exn) : string :=
  match e with
  | TypeError => "TypeError"
  | InvalidStateError => "InvalidStateError"
  end.

(** Outcome of a call that mutates a state [S]: the state it leaves, and
    the exception when it did not run to its end. *)
Inductive completion (S : Type) : Type :=
| Normal (s : S)
| Throw (e : Exn) (s : S).
Arguments Normal {S} s.
Arguments Throw {S} e s.

Definition state_of {S : Type} (c : completion S) : S :=
  match c with
  | Normal s => s
  | Throw _ s => s
  end.

Definition thrown {S : Type} (c : completion S) : option Exn :=
  match c with
  | Normal _ => None
  | Throw e _ => Some e
  end.

(** [Math.round] of a real: the nearest integer, a half going up. *)
Definition Math_round (x : Q) : Z := Qfloor (x + (1 # 2)).

End JS.

(** ** ColorUtils *)

Module ColorUtils.
Import JS.

Record RGB : Type := mkRGB { r : number; g : number; b : number }.

(** [([a-f\d]{2})([a-f\d]{2})([a-f\d]{2})$] under the [i] flag: exactly six
    hexadecimal digits up to the end of the string, captured in pairs. *)
Definition six_hex_groups (body : string) : option (string * string * string) :=
  match body with
  | String c1 (String c2 (String c3 (String c4 (String c5 (String c6 EmptyString))))) =>
      if is_hex c1 && is_hex c2 && is_hex c3 && is_hex c4 && is_hex c5 && is_hex c6
      then Some (String c1 (String c2 EmptyString),
                 String c3 (String c4 EmptyString),
                 String c5 (String c6 EmptyString))
      else None
  | _ => None
  end.

(** The match of [/^#?([a-f\d]{2})([a-f\d]{2})([a-f\d]{2})$/i]: an optional
    [#] (which is no hexadecimal digit, so the choice is forced), then the
    three groups. *)
Definition exec_hex_regex (hex : string) : option (string * string * string) :=
  six_hex_groups
    match hex with
    | String "#" rest => rest
    | _ => hex
    end.

Definition hexToRgb (hex : string) : option RGB :=
  match exec_hex_regex hex with
  | Some (g1, g2, g3) =>
      Some {| r := parseInt16 g1; g := parseInt16 g2; b := parseInt16 g3 |}
  | None => None
  end.

Definition rgbToHex (r g b : number) : string :=
  String "#"
    (slice (toString16 (add (add (add (shl (Num 1) 24) (shl r 16)) (shl g 8)) b)) 1).

(** One channel of [blendColors]:
    [Math.round(c1 * (1 - ratio) + c2 * ratio)]. *)
Definition mix (c1 c2 : number) (ratio : Q) : number :=
  match c1, c2 with
  | Num v1, Num v2 => Num (Math_round (inject_Z v1 * (1 - ratio) + inject_Z v2 * ratio))
  | _, _ => NaN
  end.

Definition blendColors (color1 color2 : string) (ratio : Q) : string :=
  match hexToRgb color1, hexToRgb color2 with
  | Some rgb1, Some rgb2 =>
      rgbToHex (mix (r rgb1) (r rgb2) ratio) (mix (g rgb1) (g rgb2) ratio)
               (mix (b rgb1) (b rgb2) ratio)
  | _, _ => color1
  end.

End ColorUtils.

(** ** The Canvas 2D drawing model

    The part of the HTML Canvas 2D context the application drives: a bitmap
    of premultiplied RGBA pixels, the drawing state ([globalAlpha],
    [globalCompositeOperation], [fillStyle], [filter]), the current path, and
    the drawing operations [fill], [fillRect], [clearRect] and [drawImage].
    Channels are exact rationals: the rounding of the 8-bit store is left
    out. Transforms and clipping regions, which the application never sets,
    are left out. *)

Module Canvas2D.
Import JS.
Local Open Scope Q_scope.

(** A pixel with premultiplied colour channels, every channel in [0,1]. *)
Record Pixel : Type := mkPixel { red : Q; green : Q; blue : Q; alpha : Q }.

Definition transparent : Pixel := mkPixel 0 0 0 0.
Definition white : Pixel := mkPixel 1 1 1 1.
Definition black : Pixel := mkPixel 0 0 0 1.

Definition pixel_eq (p q : Pixel) : Prop :=
  red p == red q /\ green p == green q /\ blue p == blue q /\ alpha p == alpha q.

Definition pixel_eqb (p q : Pixel) : bool :=
  Qeq_bool (red p) (red q) && Qeq_bool (green p) (green q)
  && Qeq_bool (blue p) (blue q) && Qeq_bool (alpha p) (alpha q).

(** A canvas element: its [width] and [height] attributes and its bitmap,
    a list of rows. *)
Record Canvas : Type := mkCanvas { width : nat; height : nat; pixels : list (list Pixel) }.

Definition tabulate (w h : nat) (f : nat -> nat -> Pixel) : list (list Pixel) :=
  map (fun j => map (fun i => f i j) (seq 0 w)) (seq 0 h).

(** Pixel in column [i] of row [j]; transparent outside the bitmap. *)
Definition get (c : Canvas) (i j : nat) : Pixel :=
  if ((i <? width c) && (j <? height c))%nat
  then nth i (nth j (pixels c) []) transparent
  else transparent.

(** [document.createElement('canvas')] followed by setting [width] and
    [height]: a transparent bitmap. *)
Definition createCanvas (w h : nat) : Canvas :=
  mkCanvas w h (tabulate w h (fun _ _ => transparent)).

Definition forall_pixels (p : Pixel -> bool) (c : Canvas) : bool :=
  forallb (fun j => forallb (fun i => p (get c i j)) (seq 0 (width c))) (seq 0 (height c)).

Record Point : Type := mkPoint { px : Q; py : Q }.

Record Subpath : Type := mkSubpath { points : list Point; closed : bool }.

Inductive CompositeOp : Type := SourceOver | SourceIn | Multiply.

(** The [filter] attribute: ['none'] or [`blur(${radius}px)`]. *)
Inductive Filter : Type := FilterNone | FilterBlur (radius : Z).

(** A 2D rendering context. The current path lists its subpaths most
    recent first; the points of a subpath are in drawing order. *)
Record Context2D : Type := mkContext {
  canvas : Canvas;
  globalCompositeOperation : CompositeOp;
  globalAlpha : Q;
  fillStyle : Pixel;
  filter : Filter;
  path : list Subpath
}.

(** [canvas.getContext('2d')] on a canvas without a context. *)
Definition getContext (c : Canvas) : Context2D :=
  mkContext c SourceOver 1 black FilterNone [].

Definition with_canvas (ctx : Context2D) (c : Canvas) : Context2D :=
  mkContext c (globalCompositeOperation ctx) (globalAlpha ctx) (fillStyle ctx)
            (filter ctx) (path ctx).

Definition with_path (ctx : Context2D) (p : list Subpath) : Context2D :=
  mkContext (canvas ctx) (globalCompositeOperation ctx) (globalAlpha ctx) (fillStyle ctx)
            (filter ctx) p.

(** *** Attribute setters *)

Definition set_globalCompositeOperation (ctx : Context2D) (op : CompositeOp) : Context2D :=
  mkContext (canvas ctx) op (globalAlpha ctx) (fillStyle ctx) (filter ctx) (path ctx).

(** Values outside [0,1] are ignored. *)
Definition set_globalAlpha (ctx : Context2D) (a : Q) : Context2D :=
  if Qle_bool 0 a && Qle_bool a 1
  then mkContext (canvas ctx) (globalCompositeOperation ctx) a (fillStyle ctx)
                 (filter ctx) (path ctx)
  else ctx.

Definition set_filter (ctx : Context2D) (f : Filter) : Context2D :=
  mkContext (canvas ctx) (globalCompositeOperation ctx) (globalAlpha ctx) (fillStyle ctx)
            f (path ctx).

Fixpoint hex_values (s : string) : option (list Z) :=
  match s with
  | EmptyString => Some []
  | String c s' =>
      match hex_value c, hex_values s' with
      | Some d, Some ds => Some (d :: ds)
      | _, _ => None
      end
  end.

Definition channel (v : Z) : Q := inject_Z v / 255.

Definition rgba (r g b a : Z) : Pixel :=
  mkPixel (channel r * channel a) (channel g * channel a) (channel b * channel a) (channel a).

(** The hexadecimal colour notations [#rgb], [#rgba], [#rrggbb] and
    [#rrggbbaa]. *)
Definition parse_hex_color (s : string) : option Pixel :=
  match s with
  | String "#" body =>
      match hex_values body with
      | Some [r; g; b] => Some (rgba (17 * r) (17 * g) (17 * b) 255)%Z
      | Some [r; g; b; a] => Some (rgba (17 * r) (17 * g) (17 * b) (17 * a))%Z
      | Some [r1; r2; g1; g2; b1; b2] =>
          Some (rgba (16 * r1 + r2) (16 * g1 + g2) (16 * b1 + b2) 255)%Z
      | Some [r1; r2; g1; g2; b1; b2; a1; a2] =>
          Some (rgba (16 * r1 + r2) (16 * g1 + g2) (16 * b1 + b2) (16 * a1 + a2))%Z
      | _ => None
      end
  | _ => None
  end.

(** What the browser adds to the drawing model: its Gaussian blur of an
    image by a radius in pixels; how near to a pixel, in pixels, an edge of
    a filled path that is not along a line of the pixel grid has to pass for
    its rasterizer to treat the pixel as one on the edge (0 for a rasterizer
    that computes areas exactly, more for one that snaps coordinates to a
    sub-pixel grid); the coverage, between 0 and 1, that its anti-aliasing
    gives such a pixel; and its reading of a colour string that is not in
    hexadecimal notation (keywords, functional notations, surrounding white
    space), [None] when the string is no colour. *)
Record Platform : Type := mkPlatform {
  gaussian_blur : Z -> Canvas -> Canvas;
  edge_tolerance : Q;
  edge_coverage : list Subpath -> nat -> nat -> Q;
  css_other : string -> option Pixel
}.

(** The tolerance of the rasterizer, never below 0. *)
Definition tolerance (p : Platform) : Q :=
  if Qle_bool 0 (edge_tolerance p) then edge_tolerance p else 0.

(** *** Paths *)

Definition beginPath (ctx : Context2D) : Context2D := with_path ctx [].

Definition moveTo (ctx : Context2D) (x y : Q) : Context2D :=
  with_path ctx (mkSubpath [mkPoint x y] false :: path ctx).

Definition lineTo (ctx : Context2D) (x y : Q) : Context2D :=
  match path ctx with
  | [] => moveTo ctx x y
  | sp :: rest => with_path ctx (mkSubpath (points sp ++ [mkPoint x y]) (closed sp) :: rest)
  end.

(** Marks the last subpath closed and starts a new one at its first point. *)
Definition closePath (ctx : Context2D) : Context2D :=
  match path ctx with
  | [] => ctx
  | sp :: rest =>
      match points sp with
      | [] => ctx
      | first :: _ =>
          with_path ctx (mkSubpath [first] false :: mkSubpath (points sp) true :: rest)
      end
  end.

(** *** The non-zero winding rule *)

Definition Qlt_bool (a b : Q) : bool := negb (Qle_bool b a).

(** Twice the signed area of the triangle [a], [b], [p]: positive when [p]
    lies to the left of the directed line from [a] to [b]. *)
Definition is_left (a b p : Point) : Q :=
  (px b - px a) * (py p - py a) - (px p - px a) * (py b - py a).

(** Contribution of the directed edge from [a] to [b] to the winding number
    around [p]: the crossings of the ray from [p] towards increasing x. *)
Definition edge_winding (a b p : Point) : Z :=
  if Qle_bool (py a) (py p)
  then if Qlt_bool (py p) (py b) && Qlt_bool 0 (is_left a b p) then 1%Z else 0%Z
  else if Qle_bool (py b) (py p) && Qlt_bool (is_left a b p) 0 then (-1)%Z else 0%Z.

Fixpoint edges_winding (first : Point) (pts : list Point) (p : Point) : Z :=
  match pts with
  | [] => 0%Z
  | a :: rest =>
      match rest with
      | [] => edge_winding a first p
      | b :: _ => (edge_winding a b p + edges_winding first rest p)%Z
      end
  end.

(** Winding number around [p] of the closed polygon through [pts], in that
    order, with the closing edge from the last point back to the first. *)
Definition polygon_winding (pts : list Point) (p : Point) : Z :=
  match pts with
  | [] => 0%Z
  | first :: _ => edges_winding first pts p
  end.

(** For filling, every subpath counts as closed. *)
Fixpoint path_winding (sps : list Subpath) (p : Point) : Z :=
  match sps with
  | [] => 0%Z
  | sp :: rest => (polygon_winding (points sp) p + path_winding rest p)%Z
  end.

(** Centre of the pixel in column [i] of row [j]. *)
Definition centre (i j : nat) : Point :=
  mkPoint (inject_Z (Z.of_nat i) + (1 # 2)) (inject_Z (Z.of_nat j) + (1 # 2)).

(** *** Pixels and edges *)

(** The segment from [a] to [b] meets the interior of the unit square at
    [(i, j)] grown by [tol] on every side. They are apart exactly when a
    side of that square or the line of the segment separates them; a segment
    along a side or through a corner only does not meet the interior, nor
    does a segment of length 0. *)
Definition segment_meets_square (tol : Q) (a b : Point) (i j : nat) : bool :=
  let x0 := inject_Z (Z.of_nat i) - tol in
  let y0 := inject_Z (Z.of_nat j) - tol in
  let x1 := inject_Z (Z.of_nat i) + 1 + tol in
  let y1 := inject_Z (Z.of_nat j) + 1 + tol in
  let s00 := is_left a b (mkPoint x0 y0) in
  let s10 := is_left a b (mkPoint x1 y0) in
  let s11 := is_left a b (mkPoint x1 y1) in
  let s01 := is_left a b (mkPoint x0 y1) in
  (Qlt_bool x0 (px a) || Qlt_bool x0 (px b))
  && (Qlt_bool (px a) x1 || Qlt_bool (px b) x1)
  && (Qlt_bool y0 (py a) || Qlt_bool y0 (py b))
  && (Qlt_bool (py a) y1 || Qlt_bool (py b) y1)
  && negb (Qle_bool 0 s00 && Qle_bool 0 s10 && Qle_bool 0 s11 && Qle_bool 0 s01)
  && negb (Qle_bool s00 0 && Qle_bool s10 0 && Qle_bool s11 0 && Qle_bool s01 0).

Definition is_integer (q : Q) : bool := Qeq_bool (inject_Z (Qfloor q)) q.

(** The segment lies along a line of the pixel grid: it is horizontal or
    vertical, at an integer coordinate. *)
Definition on_grid_line (a b : Point) : bool :=
  (Qeq_bool (px a) (px b) && is_integer (px a))
  || (Qeq_bool (py a) (py b) && is_integer (py a)).

(** The segment from [a] to [b] passes through the pixel in column [i] of
    row [j], for a rasterizer of tolerance [tol]: it meets the interior of
    the pixel's square grown by [tol]. A segment along a line of the pixel
    grid is rasterized where it is, whatever the tolerance, and passes
    through no pixel. *)
Definition segment_crosses_pixel (tol : Q) (a b : Point) (i j : nat) : bool :=
  segment_meets_square (if on_grid_line a b then 0 else tol) a b i j.

Fixpoint edges_cross_pixel (tol : Q) (first : Point) (pts : list Point) (i j : nat)
  : bool :=
  match pts with
  | [] => false
  | a :: rest =>
      match rest with
      | [] => segment_crosses_pixel tol a first i j
      | b :: _ => segment_crosses_pixel tol a b i j || edges_cross_pixel tol first rest i j
      end
  end.

(** An edge of the closed polygon through [pts] passes through the pixel. *)
Definition polygon_crosses_pixel (tol : Q) (pts : list Point) (i j : nat) : bool :=
  match pts with
  | [] => false
  | first :: _ => edges_cross_pixel tol first pts i j
  end.

Fixpoint path_crosses_pixel (tol : Q) (sps : list Subpath) (i j : nat) : bool :=
  match sps with
  | [] => false
  | sp :: rest =>
      polygon_crosses_pixel tol (points sp) i j || path_crosses_pixel tol rest i j
  end.

(** *** Compositing *)

Definition scale (k : Q) (p : Pixel) : Pixel :=
  mkPixel (k * red p) (k * green p) (k * blue p) (k * alpha p).

(** One premultiplied channel of the result, from the source channel [sc]
    and alpha [sa] and the backdrop channel [dc] and alpha [da]. With the
    alpha channel itself as [sc] and [dc] this is the resulting alpha. *)
Definition composite_channel (op : CompositeOp) (sa da sc dc : Q) : Q :=
  match op with
  | SourceOver => sc + dc * (1 - sa)
  | SourceIn => sc * da
  | Multiply => sc * dc + sc * (1 - da) + dc * (1 - sa)
  end.

Definition composite (op : CompositeOp) (s d : Pixel) : Pixel :=
  let f := composite_channel op (alpha s) (alpha d) in
  mkPixel (f (red s) (red d)) (f (green s) (green d)) (f (blue s) (blue d))
          (f (alpha s) (alpha d)).

Section Drawing.

Variable platform : Platform.

(** CSS colour parsing: the hexadecimal notations, else what the platform
    reads. *)
Definition parse_css_color (s : string) : option Pixel :=
  match parse_hex_color s with
  | Some c => Some c
  | None => css_other platform s
  end.

(** Assigning a string that is not a colour leaves [fillStyle] as it was. *)
Definition set_fillStyle (ctx : Context2D) (s : string) : Context2D :=
  match parse_css_color s with
  | Some c => mkContext (canvas ctx) (globalCompositeOperation ctx) (globalAlpha ctx) c
                        (filter ctx) (path ctx)
  | None => ctx
  end.

(** The drawing model: render the shape to a source image, run it through
    the context's [filter], multiply it by [globalAlpha], and composite
    it onto the bitmap with [globalCompositeOperation]. *)
Definition paint (ctx : Context2D) (shape : nat -> nat -> Pixel) : Context2D :=
  let w := width (canvas ctx) in
  let h := height (canvas ctx) in
  let source := mkCanvas w h (tabulate w h shape) in
  let filtered :=
    match filter ctx with
    | FilterNone => source
    | FilterBlur radius => gaussian_blur platform radius source
    end in
  with_canvas ctx
    (mkCanvas w h
       (tabulate w h (fun i j =>
          composite (globalCompositeOperation ctx)
                    (scale (globalAlpha ctx) (get filtered i j))
                    (get (canvas ctx) i j)))).

(** [ctx.fill()]: the current path, non-zero winding rule, [fillStyle]. A
    pixel that no edge passes through, within the tolerance of the
    rasterizer, lies on one side of the path and is filled or not as its
    centre is; a pixel that an edge passes through gets the fill at the
    coverage the platform's anti-aliasing gives it. *)
Definition fill (ctx : Context2D) : Context2D :=
  paint ctx (fun i j =>
    if path_crosses_pixel (tolerance platform) (path ctx) i j
    then scale (edge_coverage platform (path ctx) i j) (fillStyle ctx)
    else if (path_winding (path ctx) (centre i j) =? 0)%Z then transparent
    else fillStyle ctx).

Definition in_rect (x y w h i j : nat) : bool :=
  ((x <=? i) && (i <? x + w) && (y <=? j) && (j <? y + h))%nat.

(** [ctx.fillRect(x, y, w, h)]; no effect when [w] or [h] is zero. *)
Definition fillRect (ctx : Context2D) (x y w h : nat) : Context2D :=
  if ((w =? 0) || (h =? 0))%nat then ctx
  else paint ctx (fun i j => if in_rect x y w h i j then fillStyle ctx else transparent).

(** [ctx.clearRect(x, y, w, h)]: the pixels of the rectangle become
    transparent black, whatever the drawing state. *)
Definition clearRect (ctx : Context2D) (x y w h : nat) : Context2D :=
  let c := canvas ctx in
  with_canvas ctx
    (mkCanvas (width c) (height c)
       (tabulate (width c) (height c) (fun i j =>
          if in_rect x y w h i j then transparent else get c i j))).

(** [ctx.drawImage(image, dx, dy)] with a canvas as the image; a source
    canvas without pixels raises [InvalidStateError]. *)
Definition drawImage (ctx : Context2D) (image : Canvas) (dx dy : nat)
  : completion Context2D :=
  if ((width image =? 0) || (height image =? 0))%nat then Throw InvalidStateError ctx
  else Normal (paint ctx (fun i j =>
         if ((dx <=? i) && (dy <=? j))%nat then get image (i - dx) (j - dy)
         else transparent)).

End Drawing.

End Canvas2D.

(** ** ARLipstickApp *)

Module ARLipstickApp.
Import JS Canvas2D.
Local Open Scope Q_scope.

(** A landmark as the detector reports it: normalised coordinates. *)
Record Landmark : Type := mkLandmark { x : Q; y : Q; z : Q }.

(** The detector's result: [multiFaceLandmarks] may be missing. *)
Record Results : Type := mkResults { multiFaceLandmarks : option (list (list Landmark)) }.

Record LipLandmarks : Type := mkLipLandmarks {
  outerLip : list nat;
  innerLip : list nat;
  upperLip : list nat;
  lowerLip : list nat
}.

(** The fields of the application object that rendering and the colour
    controls read or write. [ctx] is the 2D context of the overlay canvas
    and holds the canvas itself; [statusText] and [statusIndicator] are the
    text and the class name of the two status elements. *)
Record App : Type := mkApp {
  ctx : Context2D;
  isInitialized : bool;
  currentColor : string;
  opacity : Q;
  blur : Z;
  isLipstickEnabled : bool;
  detectionActive : bool;
  lipLandmarks : LipLandmarks;
  statusText : string;
  statusIndicator : string
}.

Definition defaultLipLandmarks : LipLandmarks := {|
  outerLip := [61; 84; 17; 314; 405; 320; 307; 375; 321; 308; 324; 318;
               13; 82; 81; 80; 78; 95; 88; 178; 87; 14; 317; 402; 318; 324]%nat;
  innerLip := [78; 95; 88; 178; 87; 14; 317; 402; 318; 324; 308; 324;
               318; 317; 14; 87; 178; 88; 95; 78]%nat;
  upperLip := [61; 84; 17; 314; 405; 320; 307; 375; 321; 308]%nat;
  lowerLip := [78; 95; 88; 178; 87; 14; 317; 402; 318; 324]%nat
|}.

(** The state the constructor leaves, over a given overlay canvas: the
    fields it assigns, and the status that [initializeApp] sets before it
    first waits. *)
Definition constructor (overlay : Canvas) : App := {|
  ctx := getContext overlay;
  isInitialized := false;
  currentColor := "#FF6B6B";
  opacity := 7 # 10;
  blur := 1;
  isLipstickEnabled := true;
  detectionActive := false;
  lipLandmarks := defaultLipLandmarks;
  statusText := "Initializing camera...";
  statusIndicator := "status-indicator processing"
|}.

Definition with_ctx (app : App) (c : Context2D) : App :=
  mkApp c (isInitialized app) (currentColor app) (opacity app) (blur app)
        (isLipstickEnabled app) (detectionActive app) (lipLandmarks app)
        (statusText app) (statusIndicator app).

Definition with_blur (app : App) (radius : Z) : App :=
  mkApp (ctx app) (isInitialized app) (currentColor app) (opacity app) radius
        (isLipstickEnabled app) (detectionActive app) (lipLandmarks app)
        (statusText app) (statusIndicator app).

Definition updateStatus (app : App) (message status : string) : App :=
  mkApp (ctx app) (isInitialized app) (currentColor app) (opacity app) (blur app)
        (isLipstickEnabled app) (detectionActive app) (lipLandmarks app)
        message ("status-indicator " ++ status).

Definition selectPresetColor (app : App) (color : string) : App :=
  let app1 :=
    mkApp (ctx app) (isInitialized app) color (opacity app) (blur app)
          true (detectionActive app) (lipLandmarks app)
          (statusText app) (statusIndicator app) in
  updateStatus app1 "Lipstick applied" "online".

Definition scaled (v : Q) (extent : nat) : Q := v * inject_Z (Z.of_nat extent).

Section Rendering.

Variable platform : Platform.

(** The loop of [drawLipContour] over the indices after the first; reading
    [point.x] of a landmark that is not there raises [TypeError]. *)
Fixpoint lineTo_each (c : Context2D) (landmarks : list Landmark) (rest : list nat)
         (canvasWidth canvasHeight : nat) : completion Context2D :=
  match rest with
  | [] => Normal c
  | k :: rest' =>
      match nth_error landmarks k with
      | None => Throw TypeError c
      | Some point =>
          lineTo_each (lineTo c (scaled (x point) canvasWidth) (scaled (y point) canvasHeight))
                      landmarks rest' canvasWidth canvasHeight
      end
  end.

Definition drawLipContour (c : Context2D) (landmarks : list Landmark)
           (lipIndices : list nat) (canvasWidth canvasHeight : nat)
  : completion Context2D :=
  match lipIndices with
  | [] => Normal c
  | k0 :: rest =>
      let c := beginPath c in
      match nth_error landmarks k0 with
      | None => Throw TypeError c
      | Some firstPoint =>
          let c := moveTo c (scaled (x firstPoint) canvasWidth)
                            (scaled (y firstPoint) canvasHeight) in
          match lineTo_each c landmarks rest canvasWidth canvasHeight with
          | Throw e c => Throw e c
          | Normal c => Normal (fill platform (closePath c))
          end
      end
  end.

Definition drawLipstick (app : App) (landmarks : list Landmark) : completion App :=
  let canvasWidth := width (canvas (ctx app)) in
  let canvasHeight := height (canvas (ctx app)) in
  let lipCtx := getContext (createCanvas canvasWidth canvasHeight) in
  match drawLipContour lipCtx landmarks (outerLip (lipLandmarks app))
                       canvasWidth canvasHeight with
  | Throw e _ => Throw e app
  | Normal lipCtx =>
      let lipCtx := set_globalCompositeOperation lipCtx SourceIn in
      let lipCtx := set_fillStyle platform lipCtx (currentColor app) in
      let lipCtx := set_globalAlpha lipCtx (opacity app) in
      let lipCtx := fillRect platform lipCtx 0 0 canvasWidth canvasHeight in
      let lipCtx :=
        if (0 <? blur app)%Z then set_filter lipCtx (FilterBlur (blur app)) else lipCtx in
      let c := set_globalCompositeOperation (ctx app) Multiply in
      let c := set_globalAlpha c (opacity app) in
      match drawImage platform c (canvas lipCtx) 0 0 with
      | Throw e c => Throw e (with_ctx app c)
      | Normal c =>
          let c := set_globalCompositeOperation c SourceOver in
          let c := set_globalAlpha c 1 in
          Normal (with_ctx app c)
      end
  end.

Definition clearCanvas (app : App) : App :=
  with_ctx app (clearRect (ctx app) 0 0 (width (canvas (ctx app)))
                          (height (canvas (ctx app)))).

Definition processFaceMeshResults (app : App) (results : Results) : completion App :=
  let app := clearCanvas app in
  match multiFaceLandmarks results with
  | Some (landmarks :: _) =>
      if isLipstickEnabled app then drawLipstick app landmarks else Normal app
  | _ => Normal app
  end.

Definition resetToNatural (app : App) : App :=
  let app1 :=
    mkApp (ctx app) (isInitialized app) (currentColor app) (opacity app) (blur app)
          false (detectionActive app) (lipLandmarks app)
          (statusText app) (statusIndicator app) in
  updateStatus (clearCanvas app1) "Reset to natural lips" "online".

End Rendering.

End ARLipstickApp.

(** ** PerformanceMonitor *)

Module PerformanceMonitor.
Import JS.
Local Open Scope Q_scope.

(** The monitor's fields; times are in milliseconds. *)
Record Monitor : Type := mkMonitor { frameCount : Z; lastTime : Q; fps : Z }.

(** The constructor, [now] being what [performance.now()] answers. *)
Definition constructor (now : Q) : Monitor := mkMonitor 0 now 0.

(** [update()], [currentTime] being what [performance.now()] answers. *)
Definition update (m : Monitor) (currentTime : Q) : Monitor :=
  let count := (frameCount m + 1)%Z in
  if Qle_bool (lastTime m + 1000) currentTime
  then mkMonitor 0 currentTime
         (Math_round (inject_Z (count * 1000) / (currentTime - lastTime m)))
  else mkMonitor count (lastTime m) (fps m).

Definition getFPS (m : Monitor) : Z := fps m.

(** A run of [update] calls at the given times. *)
Definition updates (m : Monitor) (times : list Q) : Monitor := fold_left update times m.

End PerformanceMonitor.

(** ** Sample inputs *)

Module Samples.
Import JS Canvas2D ARLipstickApp.
Local Open Scope Q_scope.

Definition pixel_add (p q : Pixel) : Pixel :=
  mkPixel (red p + red q) (green p + green q) (blue p + blue q) (alpha p + alpha q).

(** A box blur, standing in for the platform's Gaussian blur when a
    property is evaluated on a concrete frame: the mean over the square
    of side [2 * radius + 1] around each pixel. *)
Definition box_blur (radius : Z) (img : Canvas) : Canvas :=
  let r := Z.to_nat radius in
  let offsets := seq 0 (2 * r + 1) in
  let sample i j di dj :=
    if ((r <=? i + di) && (r <=? j + dj))%nat
    then get img (i + di - r) (j + dj - r) else transparent in
  let total i j :=
    fold_left pixel_add
      (flat_map (fun dj => map (fun di => sample i j di dj) offsets) offsets)
      transparent in
  let side := inject_Z (Z.of_nat (2 * r + 1)) in
  mkCanvas (width img) (height img)
    (tabulate (width img) (height img) (fun i j => scale (/ (side * side)) (total i j))).

Definition white_canvas (w h : nat) : Canvas :=
  mkCanvas w h (tabulate w h (fun _ _ => white)).

(** A frame of 478 landmarks whose outer-lip contour runs around the whole
    picture: landmark 61 in the top left corner, 84 in the top right, 17 in
    the bottom right, every other one in the bottom left. *)
Definition corner_frame : list Landmark :=
  map (fun k =>
         if (k =? 61)%nat then mkLandmark 0 0 0
         else if (k =? 84)%nat then mkLandmark 1 0 0
         else if (k =? 17)%nat then mkLandmark 1 1 0
         else mkLandmark 0 1 0)
      (seq 0 478).

(** A frame whose outer-lip contour is the triangle below the diagonal. *)
Definition triangle_frame : list Landmark :=
  map (fun k =>
         if (k =? 61)%nat then mkLandmark 0 0 0
         else if (k =? 84)%nat then mkLandmark 1 1 0
         else mkLandmark 0 1 0)
      (seq 0 478).

(** The application as constructed, over a transparent 2 by 2 overlay. *)
Definition fresh_app : App := constructor (createCanvas 2 2).

(** Solid red at full opacity without blur, over a white 2 by 2 frame. *)
Definition red_on_white : App := {|
  ctx := getContext (white_canvas 2 2);
  isInitialized := true;
  currentColor := "#FF0000";
  opacity := 1;
  blur := 0;
  isLipstickEnabled := true;
  detectionActive := true;
  lipLandmarks := defaultLipLandmarks;
  statusText := EmptyString;
  statusIndicator := EmptyString
|}.

(** The same settings over a white 4 by 4 frame. *)
Definition red_on_white_4 : App := with_ctx red_on_white (getContext (white_canvas 4 4)).

(** A platform to evaluate on: the box blur, a rasterizer that computes
    areas exactly, half coverage for every pixel an edge passes through, and
    three colour keywords. *)
Definition sample_platform : Platform := {|
  gaussian_blur := box_blur;
  edge_tolerance := 0;
  edge_coverage := fun _ _ _ => 1 # 2;
  css_other := fun s =>
    if String.eqb s "red" then Some (rgba 255 0 0 255)
    else if String.eqb s "white" then Some (rgba 255 255 255 255)
    else if String.eqb s "black" then Some (rgba 0 0 0 255)
    else None
|}.


(** The square with corners (0,0) and (4,4). *)
Definition square4 : list Point :=
  [mkPoint 0 0; mkPoint 4 0; mkPoint 4 4; mkPoint 0 4].

End Samples.

(** ** Specification-level notions *)

Module Spec.
Import JS Canvas2D ARLipstickApp.
Local Open Scope Q_scope.

(** A valid colour string of the style input contract: [#] followed by
    exactly six hexadecimal digits, in either letter case. *)
Definition is_hex6 (s : string) : bool :=
  match s with
  | String "#" body =>
      (String.length body =? 6)%nat && forallb is_hex (list_ascii_of_string body)
  | _ => false
  end.

(** A landmark mapped to pixel space: scaled by the width and the height. *)
Definition to_pixel_space (w h : nat) (l : Landmark) : Point :=
  mkPoint (x l * inject_Z (Z.of_nat w)) (y l * inject_Z (Z.of_nat h)).

(** The polygon of a region: its indices mapped through the frame, in the
    given order; [None] when an index is absent from the frame. *)
Fixpoint region_polygon (F : list Landmark) (R : list nat) (w h : nat)
  : option (list Point) :=
  match R with
  | [] => Some []
  | k :: R' =>
      match nth_error F k, region_polygon F R' w h with
      | Some l, Some ps => Some (to_pixel_space w h l :: ps)
      | _, _ => None
      end
  end.

Definition in_range (F : list Landmark) (R : list nat) : bool :=
  forallb (fun k => (k <? List.length F)%nat) R.

(** Inside a closed polygon by the non-zero winding rule. *)
Definition inside (poly : list Point) (p : Point) : bool :=
  negb (polygon_winding poly p =? 0)%Z.

(** The pixel in column [i] of row [j] lies strictly inside the polygon: no
    edge passes through it, within the tolerance of the platform's
    rasterizer, and its centre is inside. *)
Definition pixel_inside (platform : Platform) (poly : list Point) (i j : nat) : bool :=
  negb (polygon_crosses_pixel (tolerance platform) poly i j) && inside poly (centre i j).

(** The pixel lies strictly outside the polygon: no edge passes through it,
    within the tolerance, and its centre is outside. *)
Definition pixel_outside (platform : Platform) (poly : list Point) (i j : nat) : bool :=
  negb (polygon_crosses_pixel (tolerance platform) poly i j)
  && negb (inside poly (centre i j)).



(** Modelled from the spec: the states of the FrameController state
    machine of the specification, which the source does not declare. *)
Inductive FrameState : Type := Idle | Active | NoFace.

(** The opaque pixel of an RGB triplet with channels in 0..255. *)
Definition opaque (rgb : ColorUtils.RGB) : Pixel :=
  let chan n :=
    match n with
    | Num v => channel v
    | NaN => 0
    end in
  mkPixel (chan (ColorUtils.r rgb)) (chan (ColorUtils.g rgb)) (chan (ColorUtils.b rgb)) 1.

(** The range of a style's opacity. *)
Definition valid_opacity (o : Q) : bool := Qle_bool 0 o && Qle_bool o 1.

(** The characters [is_hex] accepts, and the value of one of them. *)
Definition hex_chars : list ascii := list_ascii_of_string "0123456789abcdefABCDEF".

Definition hv (c : ascii) : Z :=
  match hex_value c with
  | Some v => v
  | None => 0%Z
  end.

(** The colour the lip layer is filled with: the current colour when the
    canvas reads it as one, else the [fillStyle] of a fresh context. *)
Definition layer_colour (platform : Platform) (color : string) : Pixel :=
  match parse_css_color platform color with
  | Some c => c
  | None => black
  end.

(** A pixel of the lip layer after the contour is filled. *)
Definition lip_pixel (poly : list Point) (i j : nat) : Pixel :=
  match poly with
  | [] => transparent
  | _ :: _ =>
      composite SourceOver
        (scale 1 (if inside poly (centre i j) then black else transparent)) transparent
  end.

End Spec.

Import JS Canvas2D ARLipstickApp Spec Samples.

(** * Properties *)

(** ** Colour conversion *)

Example hexToRgb_default :
  ColorUtils.hexToRgb "#FF6B6B" = Some (ColorUtils.mkRGB (Num 255) (Num 107) (Num 107)).
Proof. reflexivity. Qed.

Example rgbToHex_default :
  ColorUtils.rgbToHex (Num 255) (Num 107) (Num 107) = "#ff6b6b"%string.
Proof. reflexivity. Qed.

Example rgbToHex_zero : ColorUtils.rgbToHex (Num 0) (Num 0) (Num 0) = "#000000"%string.
Proof. reflexivity. Qed.

Lemma is_hex_enum (c : ascii) : is_hex c = true -> In c hex_chars.
Proof.
  destruct c as [b0 b1 b2 b3 b4 b5 b6 b7].
  destruct b0, b1, b2, b3, b4, b5, b6, b7; intros H; vm_compute in H;
    try discriminate H; clear H; unfold hex_chars; simpl;
    repeat (first [ left; reflexivity | right ]).
Qed.

Ltac each_hex H :=
  apply is_hex_enum in H; unfold hex_chars in H; simpl in H;
  repeat (destruct H as [H | H]; [ subst | ]); [ .. | contradiction ].

Lemma hex_value_hv (c : ascii) : is_hex c = true -> hex_value c = Some (hv c).
Proof. intros H. each_hex H; reflexivity. Qed.

Lemma hv_range (c : ascii) : is_hex c = true -> 0 <= hv c < 16.
Proof. intros H. each_hex H; vm_compute; split; congruence. Qed.

Lemma digit_char_hv (c : ascii) : is_hex c = true -> digit_char (hv c) = lower_char c.
Proof. intros H. each_hex H; reflexivity. Qed.

Lemma parseInt16_pair (a b : ascii) :
  is_hex a = true -> is_hex b = true ->
  parseInt16 (String a (String b EmptyString)) = Num (16 * hv a + hv b).
Proof. intros Ha Hb. each_hex Ha; each_hex Hb; reflexivity. Qed.

Lemma to_hex_digits_step (fuel : nat) (q v : Z) (acc : string) :
  0 <= v < 16 -> 0 < q ->
  to_hex_digits (S fuel) (16 * q + v) acc
  = to_hex_digits fuel q (String (digit_char v) acc).
Proof.
  intros Hv Hq.
  assert (Hm : (16 * q + v) mod 16 = v) by (symmetry; apply Z.mod_unique with q; lia).
  assert (Hd : (16 * q + v) / 16 = q) by (symmetry; apply Z.div_unique with v; lia).
  cbn [to_hex_digits]. rewrite Hm, Hd.
  destruct (Z.eqb_spec q 0) as [E | _]; [ lia | reflexivity ].
Qed.

Lemma to_hex_digits_last (fuel : nat) (v : Z) (acc : string) :
  0 <= v < 16 -> to_hex_digits (S fuel) v acc = String (digit_char v) acc.
Proof.
  intros Hv. cbn [to_hex_digits].
  rewrite Z.mod_small, Z.div_small by lia. reflexivity.
Qed.

Lemma shl_small (a k : Z) :
  0 <= a -> 0 <= k < 32 -> a * 2 ^ k < 2 ^ 31 -> shl (Num a) k = Num (a * 2 ^ k).
Proof.
  intros Ha Hk Hb.
  assert (Hp : 1 <= 2 ^ k) by (apply (Z.pow_le_mono_r 2 0 k); lia).
  assert (Ha' : a < 2 ^ 31) by nia.
  unfold shl, ToInt32.
  rewrite (Z.mod_small k 32) by lia.
  rewrite (Z.mod_small (a + 2 ^ 31)) by lia.
  replace (a + 2 ^ 31 - 2 ^ 31) with a by lia.
  rewrite Z.shiftl_mul_pow2 by lia.
  rewrite Z.mod_small by nia.
  f_equal. lia.
Qed.

Lemma toString16_seven_digits (v1 v2 v3 v4 v5 v6 : Z) :
  0 <= v1 < 16 -> 0 <= v2 < 16 -> 0 <= v3 < 16 ->
  0 <= v4 < 16 -> 0 <= v5 < 16 -> 0 <= v6 < 16 ->
  toString16 (Num (2 ^ 24 + (16 * v1 + v2) * 2 ^ 16 + (16 * v3 + v4) * 2 ^ 8 + (16 * v5 + v6)))
  = String "1" (String (digit_char v1) (String (digit_char v2) (String (digit_char v3)
      (String (digit_char v4) (String (digit_char v5) (String (digit_char v6) EmptyString)))))).
Proof.
  intros H1 H2 H3 H4 H5 H6.
  set (n := 2 ^ 24 + (16 * v1 + v2) * 2 ^ 16 + (16 * v3 + v4) * 2 ^ 8 + (16 * v5 + v6)).
  assert (Hn : 2 ^ 24 <= n < 2 ^ 25) by (unfold n; lia).
  unfold toString16.
  destruct (Z.ltb_spec n 0) as [Hneg | _]; [ lia | ].
  rewrite (Z.log2_unique n 24) by lia.
  change (S (Z.to_nat 24)) with 25%nat.
  replace n with (16 * (16 * (16 * (16 * (16 * (16 * 1 + v1) + v2) + v3) + v4) + v5) + v6)
    by (unfold n; lia).
  do 6 (rewrite to_hex_digits_step by lia).
  rewrite to_hex_digits_last by lia.
  reflexivity.
Qed.

Lemma is_hex6_inv (c : string) :
  is_hex6 c = true ->
  exists c1 c2 c3 c4 c5 c6,
    c = String "#" (String c1 (String c2 (String c3 (String c4 (String c5
          (String c6 EmptyString))))))
    /\ is_hex c1 = true /\ is_hex c2 = true /\ is_hex c3 = true
    /\ is_hex c4 = true /\ is_hex c5 = true /\ is_hex c6 = true.
Proof.
  destruct c as [ | h body ]; [ discriminate | ].
  destruct h as [b0 b1 b2 b3 b4 b5 b6 b7].
  destruct b0, b1, b2, b3, b4, b5, b6, b7; try discriminate.
  cbn [is_hex6]. intros H. apply andb_prop in H. destruct H as [Hlen Hall].
  destruct body as [ | c1 [ | c2 [ | c3 [ | c4 [ | c5 [ | c6 [ | c7 rest ]]]]]]];
    try discriminate Hlen.
  cbn [list_ascii_of_string forallb] in Hall.
  repeat (apply andb_prop in Hall; destruct Hall as [? Hall]).
  exists c1, c2, c3, c4, c5, c6. repeat split; assumption.
Qed.

(** C3 (as amended): for every valid 6-hex-digit colour string [c] with a
    leading [#], in either letter case, [hexToRgb] succeeds and [rgbToHex] of
    its result is [c] in lower case; so the round trip returns [c] itself
    exactly when [c] has no upper-case digit. *)
Theorem rgbToHex_hexToRgb_lowercase (c : string) :
  is_hex6 c = true ->
  exists rgb,
    ColorUtils.hexToRgb c = Some rgb
    /\ ColorUtils.rgbToHex (ColorUtils.r rgb) (ColorUtils.g rgb) (ColorUtils.b rgb)
       = toLowerCase c.
Proof.
  intros H. apply is_hex6_inv in H.
  destruct H as (c1 & c2 & c3 & c4 & c5 & c6 & -> & H1 & H2 & H3 & H4 & H5 & H6).
  unfold ColorUtils.hexToRgb, ColorUtils.exec_hex_regex, ColorUtils.six_hex_groups.
  rewrite H1, H2, H3, H4, H5, H6. cbn [andb].
  eexists. split; [ reflexivity | ].
  cbn [ColorUtils.r ColorUtils.g ColorUtils.b].
  rewrite !parseInt16_pair by assumption.
  pose proof (hv_range c1 H1). pose proof (hv_range c2 H2).
  pose proof (hv_range c3 H3). pose proof (hv_range c4 H4).
  pose proof (hv_range c5 H5). pose proof (hv_range c6 H6).
  unfold ColorUtils.rgbToHex.
  rewrite (shl_small 1 24), (shl_small _ 16), (shl_small _ 8) by lia.
  unfold add. rewrite Z.mul_1_l.
  rewrite toString16_seven_digits by assumption.
  cbn [slice toLowerCase].
  rewrite !digit_char_hv by assumption.
  reflexivity.
Qed.

Lemma rgbToHex_hexToRgb_lowercase_witness :
  exists rgb,
    ColorUtils.hexToRgb "#FF6B6B" = Some rgb
    /\ ColorUtils.rgbToHex (ColorUtils.r rgb) (ColorUtils.g rgb) (ColorUtils.b rgb)
       = "#ff6b6b"%string.
Proof. apply (rgbToHex_hexToRgb_lowercase "#FF6B6B"). reflexivity. Defined.

(** C3 (counterexample): the default colour ["#FF6B6B"] is a valid colour
    string, and the round trip returns ["#ff6b6b"], a different string. *)
Lemma rgbToHex_hexToRgb_uppercase_differs :
  is_hex6 "#FF6B6B" = true
  /\ option_map (fun rgb => ColorUtils.rgbToHex (ColorUtils.r rgb) (ColorUtils.g rgb)
                                                (ColorUtils.b rgb))
                (ColorUtils.hexToRgb "#FF6B6B") = Some "#ff6b6b"%string
  /\ "#ff6b6b"%string <> "#FF6B6B"%string.
Proof. repeat split; try reflexivity. discriminate. Qed.

(** ** Facts about the drawing model *)

Lemma nth_map_seq {A : Type} (f : nat -> A) (d : A) (n i : nat) :
  (i < n)%nat -> nth i (map f (seq 0 n)) d = f i.
Proof.
  intros Hi.
  rewrite (nth_indep _ d (f 0%nat)) by (rewrite length_map, length_seq; exact Hi).
  rewrite (map_nth f (seq 0 n) 0%nat i), seq_nth by exact Hi.
  reflexivity.
Qed.

Lemma get_tabulate (w h : nat) (f : nat -> nat -> Pixel) (i j : nat) :
  (i < w)%nat -> (j < h)%nat -> get (mkCanvas w h (tabulate w h f)) i j = f i j.
Proof.
  intros Hi Hj. unfold get, tabulate. cbn [width height pixels].
  destruct (Nat.ltb_spec i w) as [_ | Hc]; [ | lia ].
  destruct (Nat.ltb_spec j h) as [_ | Hc]; [ | lia ].
  cbn [andb].
  rewrite (nth_map_seq (fun j0 => map (fun i0 => f i0 j0) (seq 0 w)) [] h j Hj).
  cbv beta. apply (nth_map_seq (fun i0 => f i0 j)). exact Hi.
Qed.

Lemma tabulate_ext (w h : nat) (f g : nat -> nat -> Pixel) :
  (forall i j, (i < w)%nat -> (j < h)%nat -> f i j = g i j) ->
  tabulate w h f = tabulate w h g.
Proof.
  intros E. unfold tabulate.
  apply map_ext_in. intros j Hj. apply in_seq in Hj.
  apply map_ext_in. intros i Hi. apply in_seq in Hi.
  apply E; lia.
Qed.

Lemma in_rect_whole (w h i j : nat) :
  (i < w)%nat -> (j < h)%nat -> in_rect 0 0 w h i j = true.
Proof.
  intros Hi Hj. unfold in_rect. cbn [Nat.leb Nat.add andb].
  destruct (Nat.ltb_spec i w) as [_ | Hc]; [ | lia ].
  destruct (Nat.ltb_spec j h) as [_ | Hc]; [ | lia ].
  reflexivity.
Qed.

(** Clearing the whole canvas leaves the bitmap of a fresh canvas. *)
Lemma clearRect_whole (c : Context2D) :
  clearRect c 0 0 (width (canvas c)) (height (canvas c))
  = with_canvas c (createCanvas (width (canvas c)) (height (canvas c))).
Proof.
  unfold clearRect, createCanvas. f_equal. f_equal.
  apply tabulate_ext. intros i j Hi Hj.
  rewrite in_rect_whole by assumption. reflexivity.
Qed.

Lemma get_createCanvas (w h i j : nat) : get (createCanvas w h) i j = transparent.
Proof.
  unfold createCanvas.
  destruct (Nat.ltb_spec i w) as [Hi | Hi]; destruct (Nat.ltb_spec j h) as [Hj | Hj];
    try (rewrite get_tabulate by assumption; reflexivity);
    unfold get; cbn [width height pixels];
    destruct (Nat.ltb_spec i w); destruct (Nat.ltb_spec j h); try lia; reflexivity.
Qed.

Section DrawingFacts.

Variable platform : Platform.

Lemma width_paint (c : Context2D) (shape : nat -> nat -> Pixel) :
  width (canvas (paint platform c shape)) = width (canvas c).
Proof. reflexivity. Qed.

Lemma height_paint (c : Context2D) (shape : nat -> nat -> Pixel) :
  height (canvas (paint platform c shape)) = height (canvas c).
Proof. reflexivity. Qed.

(** Without a filter, [paint] composites the shape pixel by pixel. *)
Lemma get_paint (c : Context2D) (shape : nat -> nat -> Pixel) (i j : nat) :
  filter c = FilterNone ->
  (i < width (canvas c))%nat -> (j < height (canvas c))%nat ->
  get (canvas (paint platform c shape)) i j
  = composite (globalCompositeOperation c) (scale (globalAlpha c) (shape i j))
              (get (canvas c) i j).
Proof.
  intros Hf Hi Hj. unfold paint. rewrite Hf. cbn [with_canvas canvas].
  rewrite get_tabulate by assumption.
  rewrite get_tabulate by assumption.
  reflexivity.
Qed.

End DrawingFacts.

Lemma edge_winding_self (a p : Point) : edge_winding a a p = 0%Z.
Proof.
  unfold edge_winding, Qlt_bool.
  destruct (Qle_bool (py a) (py p)); reflexivity.
Qed.

Lemma set_globalAlpha_valid (c : Context2D) (a : Q) :
  Qle_bool 0 a && Qle_bool a 1 = true ->
  set_globalAlpha c a
  = mkContext (canvas c) (globalCompositeOperation c) a (fillStyle c) (filter c) (path c).
Proof. intros H. unfold set_globalAlpha. rewrite H. reflexivity. Qed.

(** ** The contour loop *)

Lemma nth_error_in_range (F : list Landmark) (k : nat) :
  (k <? List.length F)%nat = true -> exists l, nth_error F k = Some l.
Proof.
  intros H. apply Nat.ltb_lt in H.
  destruct (nth_error F k) as [l | ] eqn:E; [ exists l; reflexivity | ].
  apply nth_error_None in E. lia.
Qed.

Lemma nth_error_out_of_range (F : list Landmark) (k : nat) :
  (k <? List.length F)%nat = false -> nth_error F k = None.
Proof. intros H. apply Nat.ltb_ge in H. apply nth_error_None. exact H. Qed.

Lemma canvas_lineTo (c : Context2D) (x y : Q) : canvas (lineTo c x y) = canvas c.
Proof. unfold lineTo. destruct (path c); reflexivity. Qed.

(** The loop never touches the bitmap. *)
Lemma lineTo_each_canvas (F : list Landmark) (w h : nat) (R : list nat) :
  forall c, canvas (state_of (lineTo_each c F R w h)) = canvas c.
Proof.
  induction R as [ | k R IH ]; intros c; cbn [lineTo_each].
  - reflexivity.
  - destruct (nth_error F k) as [l | ]; [ | reflexivity ].
    rewrite IH. apply canvas_lineTo.
Qed.

Lemma lineTo_each_out_of_range (F : list Landmark) (w h : nat) (R : list nat) :
  forall c, in_range F R = false -> thrown (lineTo_each c F R w h) = Some TypeError.
Proof.
  induction R as [ | k R IH ]; intros c H; cbn [lineTo_each in_range forallb] in *.
  - discriminate H.
  - destruct (k <? List.length F)%nat eqn:Hk.
    + destruct (nth_error_in_range F k Hk) as [l ->]. apply IH. exact H.
    + rewrite (nth_error_out_of_range F k Hk). reflexivity.
Qed.

(** With every index in range the loop appends the mapped points, in
    order, to the current subpath. *)
Lemma lineTo_each_in_range (F : list Landmark) (w h : nat) (R : list nat) :
  forall c sp rest,
    in_range F R = true -> path c = sp :: rest ->
    exists ps,
      region_polygon F R w h = Some ps
      /\ lineTo_each c F R w h
         = Normal (with_path c (mkSubpath (points sp ++ ps) (closed sp) :: rest)).
Proof.
  induction R as [ | k R IH ]; intros c sp rest H Hp;
    cbn [lineTo_each in_range forallb region_polygon] in *.
  - exists []. split; [ reflexivity | ].
    rewrite app_nil_r. destruct c, sp; cbn in *; subst; reflexivity.
  - apply andb_prop in H. destruct H as [Hk HR].
    destruct (nth_error_in_range F k Hk) as [l El]. rewrite El.
    destruct (IH (lineTo c (scaled (x l) w) (scaled (y l) h))
                 (mkSubpath (points sp ++ [mkPoint (scaled (x l) w) (scaled (y l) h)])
                            (closed sp))
                 rest HR) as (ps & Eps & Erun).
    { unfold lineTo. rewrite Hp. reflexivity. }
    exists (to_pixel_space w h l :: ps). split.
    + rewrite Eps. reflexivity.
    + rewrite Erun. unfold lineTo. rewrite Hp. cbn [points closed].
      rewrite <- app_assoc. reflexivity.
Qed.

(** ** Missing landmarks *)

Lemma drawLipContour_out_of_range
  (platform : Platform) (c : Context2D) (F : list Landmark)
  (R : list nat) (w h : nat) :
  in_range F R = false ->
  thrown (drawLipContour platform c F R w h) = Some TypeError
  /\ canvas (state_of (drawLipContour platform c F R w h)) = canvas c.
Proof.
  intros H. destruct R as [ | k0 R ]; [ discriminate H | ].
  cbn [drawLipContour in_range forallb] in *.
  destruct (k0 <? List.length F)%nat eqn:Hk.
  - destruct (nth_error_in_range F k0 Hk) as [l ->].
    cbn [andb] in H.
    pose proof (lineTo_each_out_of_range F w h R
                  (moveTo (beginPath c) (scaled (x l) w) (scaled (y l) h)) H) as Ht.
    pose proof (lineTo_each_canvas F w h R
                  (moveTo (beginPath c) (scaled (x l) w) (scaled (y l) h))) as Hc.
    destruct (lineTo_each _ F R w h) as [c' | e c']; cbn [thrown state_of] in *.
    + discriminate Ht.
    + split; [ exact Ht | exact Hc ].
  - rewrite (nth_error_out_of_range F k0 Hk). split; reflexivity.
Qed.

(** C5 (as amended): when the region names an index that the landmark frame
    does not have, [drawLipContour] raises a [TypeError], the failed read of
    [point.x], before anything is filled: the bitmap is as it was. *)
Theorem drawLipContour_missing_index_throws
  (platform : Platform) (c : Context2D) (F : list Landmark)
  (R : list nat) (w h : nat) :
  in_range F R = false ->
  thrown (drawLipContour platform c F R w h) = Some TypeError
  /\ canvas (state_of (drawLipContour platform c F R w h)) = canvas c.
Proof. apply drawLipContour_out_of_range. Qed.

Lemma drawLipContour_missing_index_throws_witness :
  thrown (drawLipContour sample_platform (getContext (createCanvas 2 2)) triangle_frame
                         [61; 500]%nat 2 2) = Some TypeError
  /\ canvas (state_of (drawLipContour sample_platform (getContext (createCanvas 2 2))
                                      triangle_frame [61; 500]%nat 2 2))
     = createCanvas 2 2.
Proof.
  apply (drawLipContour_missing_index_throws sample_platform (getContext (createCanvas 2 2))
           triangle_frame [61; 500]%nat 2 2).
  reflexivity.
Defined.

(** C5 (counterexample): on a frame without landmarks and the region [[0]]
    the error raised is a [TypeError], not [InvalidLandmarkIndex]. *)
Lemma drawLipContour_error_is_not_InvalidLandmarkIndex :
  in_range [] [0%nat] = false
  /\ exists e,
       thrown (drawLipContour sample_platform (getContext (createCanvas 1 1)) [] [0%nat] 1 1)
       = Some e
       /\ exn_name e <> "InvalidLandmarkIndex"%string.
Proof.
  split; [ reflexivity | ].
  exists TypeError. split; [ reflexivity | discriminate ].
Qed.

(** The error leaves [drawLipstick] with the application untouched. *)
Lemma drawLipstick_missing_index_throws
  (platform : Platform) (app : App) (F : list Landmark) :
  in_range F (outerLip (lipLandmarks app)) = false ->
  drawLipstick platform app F = Throw TypeError app.
Proof.
  intros H. unfold drawLipstick.
  destruct (drawLipContour_out_of_range platform
              (getContext (createCanvas (width (canvas (ctx app))) (height (canvas (ctx app)))))
              F (outerLip (lipLandmarks app))
              (width (canvas (ctx app))) (height (canvas (ctx app))) H) as [Ht _].
  destruct (drawLipContour _ _ _ _ _ _) as [c' | e c']; cbn [thrown] in Ht.
  - discriminate Ht.
  - injection Ht as ->. reflexivity.
Qed.

(** ** Colour selection *)

Lemma strip_hash_other (h : ascii) (body : string) :
  h <> "#"%char ->
  match String h body with
  | String "#" rest => rest
  | _ => String h body
  end = String h body.
Proof.
  intros Hh. destruct h as [b0 b1 b2 b3 b4 b5 b6 b7].
  destruct b0, b1, b2, b3, b4, b5, b6, b7; try reflexivity.
  contradiction Hh. reflexivity.
Qed.

Lemma is_hex6_other (h : ascii) (body : string) :
  h <> "#"%char -> is_hex6 (String h body) = false.
Proof.
  intros Hh. destruct h as [b0 b1 b2 b3 b4 b5 b6 b7].
  destruct b0, b1, b2, b3, b4, b5, b6, b7; try reflexivity.
  contradiction Hh. reflexivity.
Qed.

Lemma six_hex_groups_None (body : string) :
  ColorUtils.six_hex_groups body = None
  <-> (String.length body =? 6)%nat && forallb is_hex (list_ascii_of_string body) = false.
Proof.
  destruct body as [ | c1 [ | c2 [ | c3 [ | c4 [ | c5 [ | c6 [ | c7 rest ]]]]]]];
    try (split; reflexivity).
  cbn [ColorUtils.six_hex_groups String.length Nat.eqb list_ascii_of_string forallb andb].
  rewrite andb_true_r.
  destruct (is_hex c1), (is_hex c2), (is_hex c3), (is_hex c4), (is_hex c5), (is_hex c6);
    cbn [andb]; split; intros H; try reflexivity; discriminate H.
Qed.

(** [hexToRgb] answers [null] exactly on the strings that are not six
    hexadecimal digits after an optional [#]. *)
Lemma hexToRgb_None (c : string) :
  ColorUtils.hexToRgb c = None <-> is_hex6 c || is_hex6 (String "#" c) = false.
Proof.
  assert (E : ColorUtils.hexToRgb c = None <-> ColorUtils.exec_hex_regex c = None).
  { unfold ColorUtils.hexToRgb.
    destruct (ColorUtils.exec_hex_regex c) as [[[g1 g2] g3] | ];
      split; intros H; try reflexivity; discriminate H. }
  rewrite E. clear E. unfold ColorUtils.exec_hex_regex.
  destruct c as [ | h body ].
  - split; reflexivity.
  - destruct (ascii_dec h "#") as [-> | Hh].
    + rewrite six_hex_groups_None.
      cbn [is_hex6 String.length Nat.eqb list_ascii_of_string forallb].
      change (is_hex "#") with false. cbn [andb]. rewrite andb_false_r, orb_false_r.
      reflexivity.
    + rewrite (strip_hash_other h body Hh), six_hex_groups_None.
      rewrite (is_hex6_other h body Hh). cbn [orb is_hex6]. reflexivity.
Qed.

(** C6 (as amended): [selectPresetColor] validates nothing. Whatever the
    string, malformed or not, it becomes the current colour, the lipstick is
    switched on, the status reads "Lipstick applied", and opacity, blur and
    the canvas stay as they were; [hexToRgb], which the method does not
    call, answers [null] exactly on the malformed strings. *)
Theorem selectPresetColor_accepts_any_string (app : App) (color : string) :
  currentColor (selectPresetColor app color) = color
  /\ isLipstickEnabled (selectPresetColor app color) = true
  /\ statusText (selectPresetColor app color) = "Lipstick applied"%string
  /\ opacity (selectPresetColor app color) = opacity app
  /\ blur (selectPresetColor app color) = blur app
  /\ ctx (selectPresetColor app color) = ctx app
  /\ (ColorUtils.hexToRgb color = None
      <-> is_hex6 color || is_hex6 (String "#" color) = false).
Proof.
  repeat split; try reflexivity; apply hexToRgb_None.
Qed.

(** C6 (counterexample): ["not-a-color"] is malformed, yet after
    [selectPresetColor] it is the current colour in place of ["#FF6B6B"]. *)
Lemma selectPresetColor_stores_malformed_color :
  is_hex6 "not-a-color" = false
  /\ ColorUtils.hexToRgb "not-a-color" = None
  /\ currentColor fresh_app = "#FF6B6B"%string
  /\ currentColor (selectPresetColor fresh_app "not-a-color") = "not-a-color"%string
  /\ currentColor (selectPresetColor fresh_app "not-a-color") <> currentColor fresh_app.
Proof. repeat split; try reflexivity. discriminate. Qed.

(** ** The per-frame render *)

Lemma clearCanvas_blank (app : App) :
  clearCanvas app
  = with_ctx app (with_canvas (ctx app)
                    (createCanvas (width (canvas (ctx app))) (height (canvas (ctx app))))).
Proof. unfold clearCanvas. rewrite clearRect_whole. reflexivity. Qed.




(** C8 (as amended): on a result without faces, be the list empty or
    missing, [processFaceMeshResults] ends normally, leaves every pixel of the
    overlay transparent, and changes no other field of the application; it
    records no controller state. *)
Theorem processFaceMeshResults_no_face_clears
  (platform : Platform) (app : App) (results : Results) :
  multiFaceLandmarks results = Some [] \/ multiFaceLandmarks results = None ->
  exists app',
    processFaceMeshResults platform app results = Normal app'
    /\ (forall i j, get (canvas (ctx app')) i j = transparent)
    /\ with_ctx app' (ctx app) = app.
Proof.
  intros H. exists (clearCanvas app). repeat split.
  - unfold processFaceMeshResults. destruct H as [-> | ->]; reflexivity.
  - intros i j. rewrite clearCanvas_blank. cbn [with_ctx ctx with_canvas canvas].
    apply get_createCanvas.
  - destruct app. reflexivity.
Qed.

Lemma processFaceMeshResults_no_face_clears_witness :
  exists app',
    processFaceMeshResults sample_platform red_on_white (mkResults (Some [])) = Normal app'
    /\ (forall i j, get (canvas (ctx app')) i j = transparent)
    /\ with_ctx app' (ctx red_on_white) = red_on_white.
Proof.
  apply (processFaceMeshResults_no_face_clears sample_platform red_on_white (mkResults (Some []))).
  left. reflexivity.
Defined.

(** C8 (counterexample): with the lipstick off, a result without faces and
    a result with one face leave the application in the very same state, so
    nothing read from that state can be [NoFace] after the first and
    [Active] after the second. *)
Lemma processFaceMeshResults_keeps_no_face_state :
  ~ exists controller_state : App -> FrameState,
      controller_state
        (state_of (processFaceMeshResults sample_platform (resetToNatural fresh_app)
                     (mkResults (Some []))))
      = NoFace
      /\ controller_state
           (state_of (processFaceMeshResults sample_platform (resetToNatural fresh_app)
                        (mkResults (Some [triangle_frame]))))
         = Active.
Proof.
  intros (controller_state & H0 & H1).
  change (processFaceMeshResults sample_platform (resetToNatural fresh_app)
            (mkResults (Some [triangle_frame])))
    with (processFaceMeshResults sample_platform (resetToNatural fresh_app) (mkResults (Some [])))
    in H1.
  rewrite H0 in H1. discriminate H1.
Qed.

(** C2 (the code at work): the blur radius never reaches the frame. The
    filter is assigned to the lip context after its last drawing call, and
    [drawImage] reads only that context's bitmap, so [drawLipstick] leaves
    the same overlay, and ends the same way, for every radius as for 0. *)
Theorem drawLipstick_ignores_blur
  (platform : Platform) (app : App) (landmarks : list Landmark)
  (radius : Z) :
  canvas (ctx (state_of (drawLipstick platform (with_blur app radius) landmarks)))
  = canvas (ctx (state_of (drawLipstick platform (with_blur app 0) landmarks)))
  /\ thrown (drawLipstick platform (with_blur app radius) landmarks)
     = thrown (drawLipstick platform (with_blur app 0) landmarks).
Proof.
  unfold drawLipstick.
  cbn [with_blur ctx lipLandmarks currentColor opacity blur].
  destruct (drawLipContour _ _ _ _ _ _) as [lip | e lip].
  - destruct (0 <? radius)%Z; cbn [Z.ltb Z.compare];
      unfold set_filter; cbn [canvas];
      destruct (drawImage _ _ _ _ _) as [c | e c]; split; reflexivity.
  - split; reflexivity.
Qed.

(** The drawing model does honour a filter that is set before the drawing
    call: on the destination context the same [drawImage] gives another
    frame. *)
Example filter_before_drawing_changes_frame :
  let lip := canvas (state_of (drawLipContour sample_platform (getContext (createCanvas 2 2))
                                 triangle_frame (outerLip defaultLipLandmarks) 2 2)) in
  let dst := getContext (white_canvas 2 2) in
  forall_pixels (pixel_eqb white)
    (canvas (state_of (drawImage sample_platform (set_filter dst (FilterBlur 1)) lip 0 0)))
  = false
  /\ pixel_eqb (get (canvas (state_of (drawImage sample_platform (set_filter dst (FilterBlur 1))
                                         lip 0 0))) 0 0)
               (get (canvas (state_of (drawImage sample_platform dst lip 0 0))) 0 0)
     = false.
Proof. vm_compute. split; reflexivity. Qed.

(** *** Canvas sizes *)

Lemma size_set_globalCompositeOperation (c : Context2D) (op : CompositeOp) :
  canvas (set_globalCompositeOperation c op) = canvas c.
Proof. reflexivity. Qed.

Lemma size_set_fillStyle (p : Platform) (c : Context2D) (s : string) :
  canvas (set_fillStyle p c s) = canvas c.
Proof. unfold set_fillStyle. destruct (parse_css_color p s); reflexivity. Qed.

Lemma size_set_globalAlpha (c : Context2D) (a : Q) : canvas (set_globalAlpha c a) = canvas c.
Proof. unfold set_globalAlpha. destruct (_ && _)%bool; reflexivity. Qed.

Lemma size_set_filter (c : Context2D) (f : Filter) : canvas (set_filter c f) = canvas c.
Proof. reflexivity. Qed.

Lemma width_fillRect (bf : Platform) (c : Context2D) (x y w h : nat) :
  width (canvas (fillRect bf c x y w h)) = width (canvas c).
Proof. unfold fillRect. destruct (_ || _)%bool; reflexivity. Qed.

Lemma height_fillRect (bf : Platform) (c : Context2D) (x y w h : nat) :
  height (canvas (fillRect bf c x y w h)) = height (canvas c).
Proof. unfold fillRect. destruct (_ || _)%bool; reflexivity. Qed.

Create Rewrite HintDb canvas_size.

#[local] Hint Rewrite size_set_globalCompositeOperation size_set_fillStyle
  size_set_globalAlpha size_set_filter width_fillRect height_fillRect
  width_paint height_paint : canvas_size.

(** With every index in range [drawLipContour] ends normally: it has filled
    the closed polygon of the region, or done nothing for an empty region. *)
Lemma drawLipContour_in_range
  (bf : Platform) (c : Context2D) (F : list Landmark) (R : list nat)
  (w h : nat) :
  in_range F R = true ->
  exists poly,
    region_polygon F R w h = Some poly
    /\ drawLipContour bf c F R w h
       = Normal match poly with
                | [] => c
                | first :: _ =>
                    fill bf (with_path c [mkSubpath [first] false; mkSubpath poly true])
                end.
Proof.
  intros H. destruct R as [ | k0 R ].
  - exists []. split; reflexivity.
  - cbn [in_range forallb] in H. apply andb_prop in H. destruct H as [Hk HR].
    destruct (nth_error_in_range F k0 Hk) as [l El].
    cbn [drawLipContour region_polygon]. rewrite El.
    destruct (lineTo_each_in_range F w h R
                (moveTo (beginPath c) (scaled (x l) w) (scaled (y l) h))
                (mkSubpath [mkPoint (scaled (x l) w) (scaled (y l) h)] false) []
                HR eq_refl) as (ps & Eps & Erun).
    rewrite Eps, Erun.
    exists (to_pixel_space w h l :: ps). split; reflexivity.
Qed.

Lemma drawLipContour_size
  (bf : Platform) (c : Context2D) (F : list Landmark) (R : list nat)
  (w h : nat) :
  width (canvas (state_of (drawLipContour bf c F R w h))) = width (canvas c)
  /\ height (canvas (state_of (drawLipContour bf c F R w h))) = height (canvas c).
Proof.
  destruct (in_range F R) eqn:H.
  - destruct (drawLipContour_in_range bf c F R w h H) as (poly & _ & ->).
    destruct poly; split; reflexivity.
  - destruct (drawLipContour_out_of_range bf c F R w h H) as [_ ->].
    split; reflexivity.
Qed.

(** C10: whenever [drawLipstick] runs to its end, the destination context
    is back to ['source-over'] and a global alpha of 1; and it does run to
    its end when every outer-lip index is in the frame and the canvas has
    pixels. *)
Theorem drawLipstick_restores_compositing_state
  (platform : Platform) (app : App) (landmarks : list Landmark) :
  (forall app',
      drawLipstick platform app landmarks = Normal app' ->
      globalCompositeOperation (ctx app') = SourceOver /\ globalAlpha (ctx app') = 1%Q)
  /\ (in_range landmarks (outerLip (lipLandmarks app)) = true ->
      width (canvas (ctx app)) <> 0%nat -> height (canvas (ctx app)) <> 0%nat ->
      thrown (drawLipstick platform app landmarks) = None).
Proof.
  split.
  - intros app' H. unfold drawLipstick in H.
    destruct (drawLipContour _ _ _ _ _ _) as [lip | e lip]; [ | discriminate H ].
    destruct (drawImage _ _ _ _ _) as [c | e c]; [ | discriminate H ].
    injection H as <-. split; reflexivity.
  - intros Hr Hw Hh. unfold drawLipstick.
    pose proof (drawLipContour_size platform
                  (getContext (createCanvas (width (canvas (ctx app)))
                                            (height (canvas (ctx app)))))
                  landmarks (outerLip (lipLandmarks app))
                  (width (canvas (ctx app))) (height (canvas (ctx app)))) as [Sw Sh].
    destruct (drawLipContour_in_range platform
                (getContext (createCanvas (width (canvas (ctx app)))
                                          (height (canvas (ctx app)))))
                landmarks (outerLip (lipLandmarks app))
                (width (canvas (ctx app))) (height (canvas (ctx app))) Hr)
      as (poly & _ & E).
    rewrite E in *. cbn [state_of] in Sw, Sh. clear E.
    unfold drawImage.
    destruct (0 <? blur app)%Z; autorewrite with canvas_size; rewrite Sw, Sh;
      cbn [getContext createCanvas canvas width height];
      destruct (Nat.eqb_spec (width (canvas (ctx app))) 0) as [E0 | _];
      try contradiction;
      destruct (Nat.eqb_spec (height (canvas (ctx app))) 0) as [E1 | _];
      try contradiction; reflexivity.
Qed.

Lemma drawLipstick_restores_compositing_state_witness :
  drawLipstick sample_platform fresh_app triangle_frame
  = Normal (state_of (drawLipstick sample_platform fresh_app triangle_frame))
  /\ globalCompositeOperation
       (ctx (state_of (drawLipstick sample_platform fresh_app triangle_frame))) = SourceOver
  /\ globalAlpha (ctx (state_of (drawLipstick sample_platform fresh_app triangle_frame))) = 1%Q.
Proof.
  destruct (drawLipstick_restores_compositing_state sample_platform fresh_app triangle_frame)
    as [Hrestored Hruns].
  assert (E : drawLipstick sample_platform fresh_app triangle_frame
              = Normal (state_of (drawLipstick sample_platform fresh_app triangle_frame))).
  { pose proof (Hruns eq_refl ltac:(discriminate) ltac:(discriminate)) as Ht.
    destruct (drawLipstick sample_platform fresh_app triangle_frame); [ reflexivity | discriminate Ht ]. }
  split; [ exact E | exact (Hrestored _ E) ].
Defined.

(** ** Running the callback again *)

(** Under a valid opacity, and once the contour is drawn, the blend mode
    and the global alpha that the destination context holds on entry do not
    matter to [drawLipstick]. *)
Lemma drawLipstick_entry_state
  (bf : Platform) (app : App) (landmarks : list Landmark)
  (op0 : CompositeOp) (alpha0 : Q) :
  valid_opacity (opacity app) = true ->
  in_range landmarks (outerLip (lipLandmarks app)) = true ->
  drawLipstick bf
    (with_ctx app (mkContext (canvas (ctx app)) op0 alpha0 (fillStyle (ctx app))
                             (filter (ctx app)) (path (ctx app))))
    landmarks
  = drawLipstick bf app landmarks.
Proof.
  intros Ho Hr. unfold valid_opacity in Ho.
  destruct app as [c ini col op bl en act lips st si].
  destruct c as [cv gco ga fs fl pa].
  cbn [opacity] in Ho. cbn [lipLandmarks] in Hr.
  unfold drawLipstick.
  cbn [ctx canvas lipLandmarks currentColor opacity blur with_ctx fillStyle filter path].
  destruct (drawLipContour_in_range bf (getContext (createCanvas (width cv) (height cv)))
              landmarks (outerLip lips) (width cv) (height cv) Hr) as (poly & _ & ->).
  rewrite !set_globalAlpha_valid by exact Ho.
  cbn [set_globalCompositeOperation canvas globalCompositeOperation globalAlpha
       fillStyle filter path].
  destruct (drawImage _ _ _ _ _) as [c' | e c']; reflexivity.
Qed.

(** What [drawLipstick] leaves behind differs from the application it
    started with in the destination bitmap, blend mode and global alpha
    only. *)
Lemma drawLipstick_state
  (bf : Platform) (app : App) (landmarks : list Landmark) :
  exists cv' op' alpha',
    state_of (drawLipstick bf app landmarks)
    = with_ctx app (mkContext cv' op' alpha' (fillStyle (ctx app)) (filter (ctx app))
                              (path (ctx app))).
Proof.
  destruct app as [c ini col op bl en act lips st si].
  destruct c as [cv gco ga fs fl pa].
  unfold drawLipstick.
  cbn [ctx canvas lipLandmarks currentColor opacity blur with_ctx fillStyle filter path].
  destruct (drawLipContour _ _ _ _ _ _) as [lip | e lip].
  - unfold drawImage, set_globalAlpha.
    destruct (_ || _)%bool, (Qle_bool 0 op && Qle_bool op 1)%bool;
      cbn [state_of with_ctx]; do 3 eexists; reflexivity.
  - do 3 eexists. reflexivity.
Qed.

(** Put the bitmap back, keep whatever drawing state the first run left:
    a second [drawLipstick] ends exactly like the first. *)
Lemma drawLipstick_again
  (bf : Platform) (app : App) (landmarks : list Landmark) :
  valid_opacity (opacity app) = true ->
  drawLipstick bf
    (with_ctx (state_of (drawLipstick bf app landmarks))
       (with_canvas (ctx (state_of (drawLipstick bf app landmarks))) (canvas (ctx app))))
    landmarks
  = drawLipstick bf app landmarks.
Proof.
  intros Ho.
  destruct (in_range landmarks (outerLip (lipLandmarks app))) eqn:Hr.
  - destruct (drawLipstick_state bf app landmarks) as (cv' & op' & alpha' & ->).
    rewrite <- (drawLipstick_entry_state bf app landmarks op' alpha' Ho Hr).
    destruct app as [c ini col op bl en act lips st si]. reflexivity.
  - rewrite (drawLipstick_missing_index_throws bf app landmarks Hr).
    cbn [state_of].
    replace (with_ctx app (with_canvas (ctx app) (canvas (ctx app)))) with app
      by (destruct app as [c ini col op bl en act lips st si]; destruct c; reflexivity).
    apply drawLipstick_missing_index_throws. exact Hr.
Qed.

Lemma drawLipstick_keeps_size
  (bf : Platform) (app : App) (landmarks : list Landmark) :
  width (canvas (ctx (state_of (drawLipstick bf app landmarks)))) = width (canvas (ctx app))
  /\ height (canvas (ctx (state_of (drawLipstick bf app landmarks))))
     = height (canvas (ctx app)).
Proof.
  unfold drawLipstick.
  destruct (drawLipContour _ _ _ _ _ _) as [lip | e lip]; [ | split; reflexivity ].
  unfold drawImage. destruct (_ || _)%bool; cbn [state_of with_ctx ctx];
    autorewrite with canvas_size; split; reflexivity.
Qed.

(** C9: for a style whose opacity is in [0,1], handing the same result to
    [processFaceMeshResults] a second time, the style untouched in between,
    ends the same way and leaves the same application state, the output
    frame included. *)
Theorem processFaceMeshResults_idempotent
  (platform : Platform) (app : App) (results : Results) :
  valid_opacity (opacity app) = true ->
  processFaceMeshResults platform
    (state_of (processFaceMeshResults platform app results)) results
  = processFaceMeshResults platform app results.
Proof.
  intros Ho.
  assert (Hclear : forall a,
             width (canvas (ctx a)) = width (canvas (ctx app)) ->
             height (canvas (ctx a)) = height (canvas (ctx app)) ->
             clearCanvas a
             = with_ctx a (with_canvas (ctx a) (canvas (ctx (clearCanvas app))))).
  { intros a Hw Hh. rewrite !clearCanvas_blank. cbn [with_ctx ctx with_canvas canvas].
    rewrite Hw, Hh. reflexivity. }
  assert (Hidle : clearCanvas (clearCanvas app) = clearCanvas app).
  { rewrite (Hclear (clearCanvas app)) by (rewrite clearCanvas_blank; reflexivity).
    rewrite clearCanvas_blank. destruct app as [c ini col op bl en act lips st si].
    destruct c. reflexivity. }
  assert (Hen : isLipstickEnabled (clearCanvas app) = isLipstickEnabled app)
    by (rewrite clearCanvas_blank; reflexivity).
  assert (Hnone : processFaceMeshResults platform app results = Normal (clearCanvas app) ->
                  processFaceMeshResults platform
                    (state_of (processFaceMeshResults platform app results)) results
                  = processFaceMeshResults platform app results).
  { intros E. rewrite E. cbn [state_of]. rewrite <- E.
    unfold processFaceMeshResults. rewrite Hidle. reflexivity. }
  destruct (multiFaceLandmarks results) as [[ | F more] | ] eqn:R.
  - apply Hnone. unfold processFaceMeshResults. rewrite R. reflexivity.
  - destruct (isLipstickEnabled app) eqn:En.
    + assert (E : processFaceMeshResults platform app results
                  = drawLipstick platform (clearCanvas app) F).
      { unfold processFaceMeshResults. rewrite R, Hen. reflexivity. }
      rewrite E.
      destruct (drawLipstick_keeps_size platform (clearCanvas app) F) as [Sw Sh].
      destruct (drawLipstick_state platform (clearCanvas app) F)
        as (cv' & op' & alpha' & Est).
      unfold processFaceMeshResults. rewrite R.
      rewrite (Hclear (state_of (drawLipstick platform (clearCanvas app) F))).
      * replace (isLipstickEnabled _) with true
          by (rewrite Est; cbn [with_ctx isLipstickEnabled]; symmetry; exact Hen).
        apply (drawLipstick_again platform (clearCanvas app) F).
        rewrite clearCanvas_blank. exact Ho.
      * rewrite Sw. rewrite clearCanvas_blank. reflexivity.
      * rewrite Sh. rewrite clearCanvas_blank. reflexivity.
    + apply Hnone. unfold processFaceMeshResults. rewrite R, Hen. reflexivity.
  - apply Hnone. unfold processFaceMeshResults. rewrite R. reflexivity.
Qed.

Lemma processFaceMeshResults_idempotent_witness :
  processFaceMeshResults sample_platform
    (state_of (processFaceMeshResults sample_platform fresh_app (mkResults (Some [triangle_frame]))))
    (mkResults (Some [triangle_frame]))
  = processFaceMeshResults sample_platform fresh_app (mkResults (Some [triangle_frame])).
Proof.
  apply (processFaceMeshResults_idempotent sample_platform fresh_app
           (mkResults (Some [triangle_frame]))).
  reflexivity.
Defined.

(** ** Rasterizing the lip contour *)

(** The path [drawLipContour] fills winds around a point exactly as the
    polygon of the region does: the subpath that [closePath] opens is a
    single point and adds nothing. *)
Lemma contour_path_winding (first : Point) (rest : list Point) (p : Point) :
  path_winding [mkSubpath [first] false; mkSubpath (first :: rest) true] p
  = polygon_winding (first :: rest) p.
Proof.
  cbn [path_winding points polygon_winding edges_winding].
  rewrite edge_winding_self. lia.
Qed.

(** A segment of length 0 passes through no pixel. *)
Lemma segment_crosses_pixel_self (tol : Q) (a : Point) (i j : nat) :
  segment_crosses_pixel tol a a i j = false.
Proof.
  unfold segment_crosses_pixel. generalize (if on_grid_line a a then 0%Q else tol).
  intros t. unfold segment_meets_square.
  assert (Z0 : forall p, (is_left a a p == 0)%Q) by (intros p; unfold is_left; ring).
  assert (L0 : forall p, Qle_bool 0 (is_left a a p) = true).
  { intros p. apply Qle_bool_iff. rewrite (Z0 p). apply Qle_refl. }
  rewrite !L0. cbn [andb negb]. rewrite andb_false_r. reflexivity.
Qed.

(** Nor do its edges pass through other pixels than those of the polygon. *)
Lemma contour_path_crosses (tol : Q) (first : Point) (rest : list Point) (i j : nat) :
  path_crosses_pixel tol [mkSubpath [first] false; mkSubpath (first :: rest) true] i j
  = polygon_crosses_pixel tol (first :: rest) i j.
Proof.
  cbn [path_crosses_pixel points polygon_crosses_pixel edges_cross_pixel].
  rewrite segment_crosses_pixel_self, orb_false_r. reflexivity.
Qed.

(** A pixel of the lip layer right after the fill, on a fresh context, when
    no edge of the contour passes through the pixel. *)
Lemma lip_mask_pixel
  (bf : Platform) (w h : nat) (first : Point) (rest : list Point) (i j : nat) :
  (i < w)%nat -> (j < h)%nat ->
  polygon_crosses_pixel (tolerance bf) (first :: rest) i j = false ->
  get (canvas (fill bf (with_path (getContext (createCanvas w h))
                          [mkSubpath [first] false; mkSubpath (first :: rest) true]))) i j
  = composite SourceOver
      (scale 1 (if inside (first :: rest) (centre i j) then black else transparent))
      transparent.
Proof.
  intros Hi Hj Hc. unfold fill.
  rewrite get_paint by (try reflexivity; assumption).
  cbn [with_path getContext canvas globalCompositeOperation globalAlpha fillStyle path].
  rewrite get_createCanvas, contour_path_crosses, Hc, contour_path_winding.
  unfold inside. destruct (polygon_winding (first :: rest) (centre i j) =? 0)%Z; reflexivity.
Qed.

Lemma inside_nil (p : Point) : inside [] p = false.
Proof. reflexivity. Qed.

(** C4: for a region whose indices are all in the landmark frame,
    [drawLipContour] on a fresh [w] by [h] context ends normally, having
    filled by the non-zero winding rule the closed polygon that visits the
    region's landmarks, scaled by [(w, h)], in the given order: the coverage
    it leaves is 1 at every pixel strictly inside that polygon and 0 at
    every pixel strictly outside it. The pixels an edge passes through,
    within the tolerance of the rasterizer, are the boundary, left to the
    anti-aliasing of the platform. *)
Theorem drawLipContour_rasterizes
  (platform : Platform) (F : list Landmark) (R : list nat) (w h : nat) :
  in_range F R = true ->
  exists poly,
    region_polygon F R w h = Some poly
    /\ thrown (drawLipContour platform (getContext (createCanvas w h)) F R w h) = None
    /\ forall i j, (i < w)%nat -> (j < h)%nat ->
         let mask :=
           alpha (get (canvas (state_of (drawLipContour platform
                                           (getContext (createCanvas w h)) F R w h))) i j) in
         (pixel_inside platform poly i j = true -> mask == 1)
         /\ (pixel_outside platform poly i j = true -> mask == 0).
Proof.
  intros H.
  destruct (drawLipContour_in_range platform (getContext (createCanvas w h)) F R w h H)
    as (poly & Ep & ->).
  exists poly. split; [ exact Ep | ]. split; [ reflexivity | ].
  intros i j Hi Hj. cbn [state_of]. cbv zeta.
  unfold pixel_inside, pixel_outside.
  destruct poly as [ | first rest ].
  - cbn [getContext canvas]. rewrite get_createCanvas.
    rewrite inside_nil. cbn [transparent alpha andb negb polygon_crosses_pixel].
    split; intros E; [ discriminate E | reflexivity ].
  - destruct (polygon_crosses_pixel (tolerance platform) (first :: rest) i j) eqn:Hc.
    + split; intros E; discriminate E.
    + rewrite (lip_mask_pixel platform w h first rest i j Hi Hj Hc).
      destruct (inside (first :: rest) (centre i j));
        cbn [composite composite_channel scale alpha black transparent negb andb];
        split; intros E; try discriminate E; reflexivity.
Qed.

Lemma drawLipContour_rasterizes_witness :
  exists poly,
    region_polygon triangle_frame (outerLip defaultLipLandmarks) 4 4 = Some poly
    /\ thrown (drawLipContour sample_platform (getContext (createCanvas 4 4)) triangle_frame
                 (outerLip defaultLipLandmarks) 4 4) = None
    /\ forall i j, (i < 4)%nat -> (j < 4)%nat ->
         let mask :=
           alpha (get (canvas (state_of (drawLipContour sample_platform
                                           (getContext (createCanvas 4 4)) triangle_frame
                                           (outerLip defaultLipLandmarks) 4 4))) i j) in
         (pixel_inside sample_platform poly i j = true -> mask == 1)
         /\ (pixel_outside sample_platform poly i j = true -> mask == 0).
Proof.
  apply (drawLipContour_rasterizes sample_platform triangle_frame
           (outerLip defaultLipLandmarks) 4 4).
  reflexivity.
Defined.

(** On the 4 by 4 frame the diagonal of the triangle below it passes
    through four pixels; six pixels are inside the triangle, six outside. *)
Example triangle_pixels :
  match region_polygon triangle_frame (outerLip defaultLipLandmarks) 4 4 with
  | Some poly =>
      map (fun j => map (fun i => (pixel_inside sample_platform poly i j,
                                   pixel_outside sample_platform poly i j)) (seq 0 4))
          (seq 0 4)
  | None => []
  end
  = [[(false, false); (false, true); (false, true); (false, true)];
     [(true, false); (false, false); (false, true); (false, true)];
     [(true, false); (true, false); (false, false); (false, true)];
     [(true, false); (true, false); (true, false); (false, false)]].
Proof. vm_compute. reflexivity. Qed.

(** There the fill leaves full coverage inside, none outside, and on the
    diagonal what the platform's anti-aliasing gives. *)
Example triangle_mask :
  map (map (fun p => Qred (alpha p)))
      (pixels (canvas (state_of (drawLipContour sample_platform (getContext (createCanvas 4 4))
                                   triangle_frame (outerLip defaultLipLandmarks) 4 4))))
  = [[1 # 2; 0; 0; 0]; [1; 1 # 2; 0; 0]; [1; 1; 1 # 2; 0]; [1; 1; 1; 1 # 2]]%Q.
Proof. vm_compute. reflexivity. Qed.
(** ** The blend *)

Lemma region_polygon_in_range (F : list Landmark) (w h : nat) (R : list nat) :
  forall poly, region_polygon F R w h = Some poly -> in_range F R = true.
Proof.
  unfold in_range.
  induction R as [ | k R IH ]; intros poly H; cbn [region_polygon forallb] in *.
  - reflexivity.
  - destruct (nth_error F k) as [l | ] eqn:El; [ | discriminate H ].
    destruct (region_polygon F R w h) as [ps | ]; [ | discriminate H ].
    rewrite (IH ps eq_refl), andb_true_r.
    apply Nat.ltb_lt. apply nth_error_Some. rewrite El. discriminate.
Qed.

Lemma fillRect_pixel (bf : Platform) (c : Context2D) (i j : nat) :
  filter c = FilterNone ->
  (i < width (canvas c))%nat -> (j < height (canvas c))%nat ->
  get (canvas (fillRect bf c 0 0 (width (canvas c)) (height (canvas c)))) i j
  = composite (globalCompositeOperation c) (scale (globalAlpha c) (fillStyle c))
              (get (canvas c) i j).
Proof.
  intros Hf Hi Hj. unfold fillRect.
  destruct (Nat.eqb_spec (width (canvas c)) 0) as [E | _]; [ lia | ].
  destruct (Nat.eqb_spec (height (canvas c)) 0) as [E | _]; [ lia | ].
  cbn [orb]. rewrite get_paint by assumption.
  rewrite in_rect_whole by assumption. reflexivity.
Qed.

Lemma drawImage_pixel (bf : Platform) (c : Context2D) (image : Canvas)
  (i j : nat) :
  filter c = FilterNone ->
  (i < width (canvas c))%nat -> (j < height (canvas c))%nat ->
  width image <> 0%nat -> height image <> 0%nat ->
  thrown (drawImage bf c image 0 0) = None
  /\ get (canvas (state_of (drawImage bf c image 0 0))) i j
     = composite (globalCompositeOperation c) (scale (globalAlpha c) (get image i j))
                 (get (canvas c) i j).
Proof.
  intros Hf Hi Hj Hw Hh. unfold drawImage.
  destruct (Nat.eqb_spec (width image) 0) as [E | _]; [ contradiction | ].
  destruct (Nat.eqb_spec (height image) 0) as [E | _]; [ contradiction | ].
  cbn [orb thrown state_of]. split; [ reflexivity | ].
  rewrite get_paint by assumption.
  cbn [Nat.leb andb]. rewrite !Nat.sub_0_r. reflexivity.
Qed.

(** The three compositing steps of [drawLipstick] at a pixel that no edge
    of the contour passes through, for a valid opacity and a destination
    context without a filter of its own. The lip layer is the polygon in
    opaque black; source-in replaces it by the layer colour at the style's
    opacity; the result is multiplied onto the destination at the style's
    opacity again. *)
Lemma drawLipstick_pixel_general
  (bf : Platform) (app : App) (F : list Landmark)
  (poly : list Point) (i j : nat) :
  region_polygon F (outerLip (lipLandmarks app))
    (width (canvas (ctx app))) (height (canvas (ctx app))) = Some poly ->
  polygon_crosses_pixel (tolerance bf) poly i j = false ->
  valid_opacity (opacity app) = true ->
  filter (ctx app) = FilterNone ->
  (i < width (canvas (ctx app)))%nat -> (j < height (canvas (ctx app)))%nat ->
  thrown (drawLipstick bf app F) = None
  /\ get (canvas (ctx (state_of (drawLipstick bf app F)))) i j
     = composite Multiply
         (scale (opacity app)
            (composite SourceIn (scale (opacity app) (layer_colour bf (currentColor app)))
               (lip_pixel poly i j)))
         (get (canvas (ctx app)) i j).
Proof.
  intros Hpoly Hc Ho Hf Hi Hj.
  destruct app as [c ini col op bl en act lips st si].
  destruct c as [cv gco ga fs fl pa].
  cbn [ctx canvas lipLandmarks currentColor opacity filter] in *.
  subst fl. unfold valid_opacity in Ho.
  set (w := width cv) in *. set (h := height cv) in *.
  pose proof (region_polygon_in_range F w h _ _ Hpoly) as Hr.
  destruct (drawLipContour_in_range bf (getContext (createCanvas w h)) F (outerLip lips)
              w h Hr) as (poly' & Ep & Erun).
  rewrite Hpoly in Ep. injection Ep as <-.
  unfold drawLipstick.
  cbn [ctx canvas lipLandmarks currentColor opacity blur].
  fold w h. rewrite Erun.
  set (lip1 := match poly with [] => _ | _ :: _ => _ end).
  assert (L1 : filter lip1 = FilterNone /\ width (canvas lip1) = w /\ height (canvas lip1) = h
               /\ get (canvas lip1) i j = lip_pixel poly i j).
  { unfold lip1, lip_pixel. destruct poly as [ | first rest ].
    - repeat split. apply get_createCanvas.
    - repeat split. apply lip_mask_pixel; assumption. }
  destruct L1 as (Lf & Lw & Lh & Lg).
  set (lip4 := set_globalAlpha
                 (set_fillStyle bf (set_globalCompositeOperation lip1 SourceIn) col) op).
  assert (E4 : lip4 = mkContext (canvas lip1) SourceIn op (layer_colour bf col) FilterNone
                        (path lip1)).
  { unfold lip4, set_fillStyle, layer_colour.
    destruct (parse_css_color bf col);
      rewrite set_globalAlpha_valid by exact Ho;
      cbn [set_globalCompositeOperation canvas globalCompositeOperation globalAlpha
           fillStyle filter path];
      rewrite Lf; try reflexivity.
    unfold lip1. destruct poly; reflexivity. }
  set (lip5 := fillRect bf lip4 0 0 w h).
  set (lip6 := if (0 <? bl)%Z then set_filter lip5 (FilterBlur bl) else lip5).
  assert (E6 : canvas lip6 = canvas lip5) by (unfold lip6; destruct (0 <? bl)%Z; reflexivity).
  assert (W5 : width (canvas lip5) = w /\ height (canvas lip5) = h).
  { unfold lip5. rewrite width_fillRect, height_fillRect, E4. split; assumption. }
  destruct W5 as [W5 H5].
  rewrite E6.
  rewrite set_globalAlpha_valid by exact Ho.
  cbn [set_globalCompositeOperation canvas globalCompositeOperation globalAlpha
       fillStyle filter path].
  destruct (drawImage_pixel bf (mkContext cv Multiply op fs FilterNone pa) (canvas lip5) i j
              eq_refl Hi Hj ltac:(rewrite W5; unfold w; lia) ltac:(rewrite H5; unfold h; lia))
    as [Ht Hg].
  destruct (drawImage _ _ _ _ _) as [c' | e c']; [ | discriminate Ht ].
  cbn [thrown state_of with_ctx ctx] in *. split; [ reflexivity | ].
  autorewrite with canvas_size. rewrite Hg.
  cbn [canvas globalCompositeOperation globalAlpha].
  f_equal. f_equal.
  assert (G5 : get (canvas lip5) i j
               = composite SourceIn (scale op (layer_colour bf col)) (get (canvas lip1) i j)).
  { unfold lip5.
    replace w with (width (canvas lip4)) by (rewrite E4; exact Lw).
    replace h with (height (canvas lip4)) by (rewrite E4; exact Lh).
    rewrite fillRect_pixel.
    - rewrite E4. reflexivity.
    - rewrite E4. reflexivity.
    - rewrite E4. cbn [canvas]. rewrite Lw. exact Hi.
    - rewrite E4. cbn [canvas]. rewrite Lh. exact Hj. }
  rewrite G5, Lg. reflexivity.
Qed.

(** The lip layer at a pixel no edge passes through: black, and opaque or
    absent as the pixel centre is inside the polygon or not. *)
Lemma alpha_lip_pixel (poly : list Point) (i j : nat) :
  (red (lip_pixel poly i j) == 0 /\ green (lip_pixel poly i j) == 0
   /\ blue (lip_pixel poly i j) == 0
   /\ alpha (lip_pixel poly i j) == if inside poly (centre i j) then 1 else 0)%Q.
Proof.
  unfold lip_pixel. destruct poly as [ | first rest ].
  - rewrite inside_nil. repeat split; reflexivity.
  - destruct (inside (first :: rest) (centre i j)); repeat split; reflexivity.
Qed.

Lemma pixel_inside_inv (p : Platform) (poly : list Point) (i j : nat) :
  pixel_inside p poly i j = true ->
  polygon_crosses_pixel (tolerance p) poly i j = false /\ inside poly (centre i j) = true.
Proof.
  unfold pixel_inside. intros H. apply andb_prop in H. destruct H as [H1 H2].
  split; [ apply negb_true_iff; exact H1 | exact H2 ].
Qed.

Lemma pixel_outside_inv (p : Platform) (poly : list Point) (i j : nat) :
  pixel_outside p poly i j = true ->
  polygon_crosses_pixel (tolerance p) poly i j = false /\ inside poly (centre i j) = false.
Proof.
  unfold pixel_outside. intros H. apply andb_prop in H. destruct H as [H1 H2].
  split; apply negb_true_iff; assumption.
Qed.




(** A valid colour string reads the same to [hexToRgb] and to the canvas,
    whatever the platform. *)
Lemma hex6_colour (p : Platform) (c : string) :
  is_hex6 c = true ->
  exists r g b,
    ColorUtils.hexToRgb c = Some (ColorUtils.mkRGB (Num r) (Num g) (Num b))
    /\ parse_css_color p c = Some (rgba r g b 255).
Proof.
  intros H. apply is_hex6_inv in H.
  destruct H as (c1 & c2 & c3 & c4 & c5 & c6 & -> & H1 & H2 & H3 & H4 & H5 & H6).
  exists (16 * hv c1 + hv c2), (16 * hv c3 + hv c4), (16 * hv c5 + hv c6). split.
  - unfold ColorUtils.hexToRgb, ColorUtils.exec_hex_regex, ColorUtils.six_hex_groups.
    rewrite H1, H2, H3, H4, H5, H6. cbn [andb].
    rewrite !parseInt16_pair by assumption. reflexivity.
  - unfold parse_css_color. cbn [parse_hex_color hex_values].
    rewrite (hex_value_hv c1 H1), (hex_value_hv c2 H2), (hex_value_hv c3 H3),
      (hex_value_hv c4 H4), (hex_value_hv c5 H5), (hex_value_hv c6 H6).
    reflexivity.
Qed.

Lemma valid_opacity_ends (o : Q) : (o == 1 \/ o == 0)%Q -> valid_opacity o = true.
Proof.
  intros [E | E]; unfold valid_opacity; apply andb_true_intro;
    split; apply Qle_bool_iff; rewrite E; discriminate.
Qed.





(** The scenario of the specification: solid red at full opacity over a
    solid white frame, under a mask of full coverage, gives a solid red
    frame. *)
Example red_on_white_is_red :
  forall_pixels (pixel_eqb (mkPixel 1 0 0 1))
    (canvas (ctx (state_of (drawLipstick sample_platform red_on_white corner_frame)))) = true.
Proof. vm_compute. reflexivity. Qed.

(** ** The winding rule on a square *)

Ltac decide_Qle :=
  repeat match goal with
    | |- context [Qle_bool ?a ?b] =>
        let E := fresh "E" in
        destruct (Qle_bool a b) eqn:E;
        [ apply Qle_bool_iff in E
        | let N := fresh "N" in
          assert (N : ~ (a <= b)%Q) by (intros C; apply Qle_bool_iff in C; congruence);
          clear E ]
    end.

(** By the winding rule as modelled, the points inside the square with
    corners (0,0) and (4,4) are those of the square itself, the left and the
    upper edge included, the right and the lower edge excluded. *)
Example inside_square4 (p : Point) :
  inside square4 p = true <-> (0 <= px p /\ px p < 4 /\ 0 <= py p /\ py p < 4)%Q.
Proof.
  destruct p as [x y].
  unfold inside, square4, polygon_winding, edges_winding, edge_winding, Qlt_bool, is_left.
  cbn [px py].
  decide_Qle; cbn [negb andb Z.add Z.eqb Z.opp Pos.eqb Z.pos_sub];
    split; intros Hin; try discriminate Hin; try reflexivity;
    try (exfalso; lra); try (repeat split; lra).
Qed.

(** * Further properties *)

(** ** ColorUtils beyond the round trip *)

Lemma hex_digit_cases (v : Z) :
  0 <= v < 16 ->
  v = 0 \/ v = 1 \/ v = 2 \/ v = 3 \/ v = 4 \/ v = 5 \/ v = 6 \/ v = 7 \/ v = 8 \/ v = 9
  \/ v = 10 \/ v = 11 \/ v = 12 \/ v = 13 \/ v = 14 \/ v = 15.
Proof. lia. Qed.

Ltac each_digit H :=
  apply hex_digit_cases in H;
  repeat (destruct H as [H | H]; [ subst | ]); [ .. | subst ].

Lemma is_hex_digit_char (v : Z) : 0 <= v < 16 -> is_hex (digit_char v) = true.
Proof. intros H. each_digit H; reflexivity. Qed.

Lemma hv_digit_char (v : Z) : 0 <= v < 16 -> hv (digit_char v) = v.
Proof. intros H. each_digit H; reflexivity. Qed.

Lemma lower_digit_char (v : Z) : 0 <= v < 16 -> lower_char (digit_char v) = digit_char v.
Proof. intros H. each_digit H; reflexivity. Qed.

(** The string [rgbToHex] builds from channels in 0..255: [#] and the two
    hexadecimal digits of each channel. *)
Lemma rgbToHex_digits (r g b : Z) :
  0 <= r <= 255 -> 0 <= g <= 255 -> 0 <= b <= 255 ->
  ColorUtils.rgbToHex (Num r) (Num g) (Num b)
  = String "#" (String (digit_char (r / 16)) (String (digit_char (r mod 16))
      (String (digit_char (g / 16)) (String (digit_char (g mod 16))
        (String (digit_char (b / 16)) (String (digit_char (b mod 16)) EmptyString)))))).
Proof.
  intros Hr Hg Hb.
  unfold ColorUtils.rgbToHex.
  rewrite (shl_small 1 24), (shl_small r 16), (shl_small g 8) by lia.
  unfold add. rewrite Z.mul_1_l.
  rewrite (Z.div_mod r 16) at 1 by lia.
  rewrite (Z.div_mod g 16) at 1 by lia.
  rewrite (Z.div_mod b 16) at 1 by lia.
  pose proof (Z.mod_pos_bound r 16 ltac:(lia)).
  pose proof (Z.mod_pos_bound g 16 ltac:(lia)).
  pose proof (Z.mod_pos_bound b 16 ltac:(lia)).
  assert (0 <= r / 16 < 16) by (split; [ apply Z.div_pos | apply Z.div_lt_upper_bound ]; lia).
  assert (0 <= g / 16 < 16) by (split; [ apply Z.div_pos | apply Z.div_lt_upper_bound ]; lia).
  assert (0 <= b / 16 < 16) by (split; [ apply Z.div_pos | apply Z.div_lt_upper_bound ]; lia).
  rewrite toString16_seven_digits by assumption.
  reflexivity.
Qed.

Lemma digits_bounds (v : Z) : 0 <= v <= 255 -> 0 <= v / 16 < 16 /\ 0 <= v mod 16 < 16.
Proof.
  intros H. split.
  - split; [ apply Z.div_pos | apply Z.div_lt_upper_bound ]; lia.
  - apply Z.mod_pos_bound. lia.
Qed.

Lemma hexToRgb_rgbToHex_in_range (r g b : Z) :
  0 <= r <= 255 -> 0 <= g <= 255 -> 0 <= b <= 255 ->
  ColorUtils.hexToRgb (ColorUtils.rgbToHex (Num r) (Num g) (Num b))
  = Some (ColorUtils.mkRGB (Num r) (Num g) (Num b)).
Proof.
  intros Hr Hg Hb. rewrite rgbToHex_digits by assumption.
  destruct (digits_bounds r Hr) as [R1 R2].
  destruct (digits_bounds g Hg) as [G1 G2].
  destruct (digits_bounds b Hb) as [B1 B2].
  unfold ColorUtils.hexToRgb, ColorUtils.exec_hex_regex, ColorUtils.six_hex_groups.
  rewrite !is_hex_digit_char by assumption. cbn [andb].
  rewrite !parseInt16_pair by (apply is_hex_digit_char; assumption).
  rewrite !hv_digit_char by assumption.
  rewrite <- !Z.div_mod by lia. reflexivity.
Qed.

(** X1: [hexToRgb] undoes [rgbToHex] on channels in 0..255. *)
Theorem hexToRgb_rgbToHex (r g b : Z) :
  0 <= r <= 255 -> 0 <= g <= 255 -> 0 <= b <= 255 ->
  ColorUtils.hexToRgb (ColorUtils.rgbToHex (Num r) (Num g) (Num b))
  = Some (ColorUtils.mkRGB (Num r) (Num g) (Num b)).
Proof. apply hexToRgb_rgbToHex_in_range. Qed.

Lemma hexToRgb_rgbToHex_witness :
  ColorUtils.hexToRgb (ColorUtils.rgbToHex (Num 255) (Num 107) (Num 107))
  = Some (ColorUtils.mkRGB (Num 255) (Num 107) (Num 107)).
Proof. apply (hexToRgb_rgbToHex 255 107 107); lia. Defined.

Lemma rgbToHex_in_range (r g b : Z) :
  0 <= r <= 255 -> 0 <= g <= 255 -> 0 <= b <= 255 ->
  is_hex6 (ColorUtils.rgbToHex (Num r) (Num g) (Num b)) = true
  /\ toLowerCase (ColorUtils.rgbToHex (Num r) (Num g) (Num b))
     = ColorUtils.rgbToHex (Num r) (Num g) (Num b).
Proof.
  intros Hr Hg Hb. rewrite rgbToHex_digits by assumption.
  destruct (digits_bounds r Hr) as [R1 R2].
  destruct (digits_bounds g Hg) as [G1 G2].
  destruct (digits_bounds b Hb) as [B1 B2].
  split.
  - cbn [is_hex6 String.length Nat.eqb list_ascii_of_string forallb].
    rewrite !is_hex_digit_char by assumption. reflexivity.
  - cbn [toLowerCase]. rewrite !lower_digit_char by assumption. reflexivity.
Qed.

(** X2: on channels in 0..255 [rgbToHex] gives a valid colour string, [#]
    and six hexadecimal digits, with no upper-case letter in it. *)
Theorem rgbToHex_is_hex6 (r g b : Z) :
  0 <= r <= 255 -> 0 <= g <= 255 -> 0 <= b <= 255 ->
  is_hex6 (ColorUtils.rgbToHex (Num r) (Num g) (Num b)) = true
  /\ toLowerCase (ColorUtils.rgbToHex (Num r) (Num g) (Num b))
     = ColorUtils.rgbToHex (Num r) (Num g) (Num b).
Proof. apply rgbToHex_in_range. Qed.

Lemma rgbToHex_is_hex6_witness :
  is_hex6 (ColorUtils.rgbToHex (Num 0) (Num 128) (Num 255)) = true
  /\ toLowerCase (ColorUtils.rgbToHex (Num 0) (Num 128) (Num 255))
     = ColorUtils.rgbToHex (Num 0) (Num 128) (Num 255).
Proof. apply (rgbToHex_is_hex6 0 128 255); lia. Defined.

Lemma six_hex_groups_Some (body : string) (g1 g2 g3 : string) :
  ColorUtils.six_hex_groups body = Some (g1, g2, g3) ->
  exists c1 c2 c3 c4 c5 c6,
    body = String c1 (String c2 (String c3 (String c4 (String c5 (String c6 EmptyString)))))
    /\ g1 = String c1 (String c2 EmptyString)
    /\ g2 = String c3 (String c4 EmptyString)
    /\ g3 = String c5 (String c6 EmptyString)
    /\ is_hex c1 = true /\ is_hex c2 = true /\ is_hex c3 = true
    /\ is_hex c4 = true /\ is_hex c5 = true /\ is_hex c6 = true.
Proof.
  destruct body as [ | c1 [ | c2 [ | c3 [ | c4 [ | c5 [ | c6 [ | c7 rest ]]]]]]];
    try discriminate.
  cbn [ColorUtils.six_hex_groups].
  destruct (is_hex c1) eqn:H1, (is_hex c2) eqn:H2, (is_hex c3) eqn:H3, (is_hex c4) eqn:H4,
    (is_hex c5) eqn:H5, (is_hex c6) eqn:H6; cbn [andb]; try discriminate.
  intros E. injection E as <- <- <-.
  exists c1, c2, c3, c4, c5, c6. repeat split; solve [ reflexivity | assumption ].
Qed.

(** Whatever [hexToRgb] answers other than [null] is made of three integers
    in 0..255. *)
Lemma hexToRgb_Some (c : string) (rgb : ColorUtils.RGB) :
  ColorUtils.hexToRgb c = Some rgb ->
  exists r g b,
    rgb = ColorUtils.mkRGB (Num r) (Num g) (Num b)
    /\ 0 <= r <= 255 /\ 0 <= g <= 255 /\ 0 <= b <= 255.
Proof.
  unfold ColorUtils.hexToRgb, ColorUtils.exec_hex_regex.
  destruct (ColorUtils.six_hex_groups _) as [[[g1 g2] g3] | ] eqn:E; [ | discriminate ].
  apply six_hex_groups_Some in E.
  destruct E as (c1 & c2 & c3 & c4 & c5 & c6 & _ & -> & -> & -> & H1 & H2 & H3 & H4 & H5 & H6).
  intros E. injection E as <-.
  rewrite !parseInt16_pair by assumption.
  pose proof (hv_range c1 H1). pose proof (hv_range c2 H2).
  pose proof (hv_range c3 H3). pose proof (hv_range c4 H4).
  pose proof (hv_range c5 H5). pose proof (hv_range c6 H6).
  do 3 eexists. split; [ reflexivity | lia ].
Qed.

(** X3: every result of [hexToRgb] other than [null] has three integer
    channels, each in 0..255. *)
Theorem hexToRgb_channels_in_range (c : string) (rgb : ColorUtils.RGB) :
  ColorUtils.hexToRgb c = Some rgb ->
  exists r g b,
    rgb = ColorUtils.mkRGB (Num r) (Num g) (Num b)
    /\ 0 <= r <= 255 /\ 0 <= g <= 255 /\ 0 <= b <= 255.
Proof. apply hexToRgb_Some. Qed.

Lemma hexToRgb_channels_in_range_witness :
  exists r g b,
    ColorUtils.mkRGB (Num 255) (Num 107) (Num 107) = ColorUtils.mkRGB (Num r) (Num g) (Num b)
    /\ 0 <= r <= 255 /\ 0 <= g <= 255 /\ 0 <= b <= 255.
Proof.
  apply (hexToRgb_channels_in_range "FF6B6B" (ColorUtils.mkRGB (Num 255) (Num 107) (Num 107))).
  reflexivity.
Defined.

(** X4: the leading [#] is optional: six hexadecimal digits read the same
    with it and without it. *)
Theorem hexToRgb_hash_optional (digits : string) :
  is_hex6 (String "#" digits) = true ->
  ColorUtils.hexToRgb digits = ColorUtils.hexToRgb (String "#" digits)
  /\ ColorUtils.hexToRgb digits <> None.
Proof.
  intros H. apply is_hex6_inv in H.
  destruct H as (c1 & c2 & c3 & c4 & c5 & c6 & E & H1 & H2 & H3 & H4 & H5 & H6).
  injection E as ->.
  assert (Hh : c1 <> "#"%char) by (intros ->; discriminate H1).
  unfold ColorUtils.hexToRgb, ColorUtils.exec_hex_regex.
  rewrite (strip_hash_other c1 _ Hh).
  unfold ColorUtils.six_hex_groups.
  rewrite H1, H2, H3, H4, H5, H6. cbn [andb].
  split; [ reflexivity | discriminate ].
Qed.

Lemma hexToRgb_hash_optional_witness :
  ColorUtils.hexToRgb "ff6b6b" = ColorUtils.hexToRgb "#ff6b6b"
  /\ ColorUtils.hexToRgb "ff6b6b" <> None.
Proof. apply (hexToRgb_hash_optional "ff6b6b"). reflexivity. Defined.

Lemma is_hex_lower_char (c : ascii) : is_hex (lower_char c) = is_hex c.
Proof.
  destruct c as [b0 b1 b2 b3 b4 b5 b6 b7].
  destruct b0, b1, b2, b3, b4, b5, b6, b7; reflexivity.
Qed.

Lemma hv_lower_char (c : ascii) : hv (lower_char c) = hv c.
Proof.
  destruct c as [b0 b1 b2 b3 b4 b5 b6 b7].
  destruct b0, b1, b2, b3, b4, b5, b6, b7; reflexivity.
Qed.

Lemma lower_char_hash (c : ascii) : lower_char c = "#"%char -> c = "#"%char.
Proof.
  destruct c as [b0 b1 b2 b3 b4 b5 b6 b7].
  destruct b0, b1, b2, b3, b4, b5, b6, b7; intros H;
    solve [ reflexivity | vm_compute in H; discriminate H ].
Qed.

Lemma hexToRgb_body (body : string) :
  match ColorUtils.six_hex_groups (toLowerCase body) with
  | Some (g1, g2, g3) =>
      Some {| ColorUtils.r := parseInt16 g1; ColorUtils.g := parseInt16 g2;
              ColorUtils.b := parseInt16 g3 |}
  | None => None
  end
  = match ColorUtils.six_hex_groups body with
    | Some (g1, g2, g3) =>
        Some {| ColorUtils.r := parseInt16 g1; ColorUtils.g := parseInt16 g2;
                ColorUtils.b := parseInt16 g3 |}
    | None => None
    end.
Proof.
  destruct body as [ | c1 [ | c2 [ | c3 [ | c4 [ | c5 [ | c6 [ | c7 rest ]]]]]]];
    try reflexivity.
  cbn [toLowerCase ColorUtils.six_hex_groups].
  rewrite !is_hex_lower_char.
  destruct (is_hex c1) eqn:H1, (is_hex c2) eqn:H2, (is_hex c3) eqn:H3, (is_hex c4) eqn:H4,
    (is_hex c5) eqn:H5, (is_hex c6) eqn:H6; cbn [andb]; try reflexivity.
  rewrite !parseInt16_pair by (rewrite ?is_hex_lower_char; assumption).
  rewrite !hv_lower_char. reflexivity.
Qed.

(** X5: [hexToRgb] does not look at letter case: a string and its lower-case
    form get the same answer, be it a colour or [null]. *)
Theorem hexToRgb_case_insensitive (c : string) :
  ColorUtils.hexToRgb (toLowerCase c) = ColorUtils.hexToRgb c.
Proof.
  unfold ColorUtils.hexToRgb, ColorUtils.exec_hex_regex.
  destruct c as [ | h body ]; [ reflexivity | ].
  destruct (ascii_dec h "#") as [-> | Hh].
  - cbn [toLowerCase]. change (lower_char "#") with "#"%char. apply hexToRgb_body.
  - assert (Hl : lower_char h <> "#"%char) by (intros E; apply Hh, lower_char_hash, E).
    cbn [toLowerCase].
    rewrite (strip_hash_other (lower_char h) _ Hl), (strip_hash_other h _ Hh).
    apply (hexToRgb_body (String h body)).
Qed.

(** X6: [rgbToHex] does not clamp: 256 too many in the green channel is one
    more in the red channel. *)
Theorem rgbToHex_green_carries (r g b : Z) :
  0 <= r < 255 -> 0 <= g <= 255 -> 0 <= b <= 255 ->
  ColorUtils.rgbToHex (Num r) (Num (g + 256)) (Num b)
  = ColorUtils.rgbToHex (Num (r + 1)) (Num g) (Num b).
Proof.
  intros Hr Hg Hb. unfold ColorUtils.rgbToHex.
  rewrite (shl_small 1 24), (shl_small r 16), (shl_small (g + 256) 8),
    (shl_small (r + 1) 16), (shl_small g 8) by lia.
  unfold add.
  replace (1 * 2 ^ 24 + r * 2 ^ 16 + (g + 256) * 2 ^ 8 + b)
    with (1 * 2 ^ 24 + (r + 1) * 2 ^ 16 + g * 2 ^ 8 + b) by lia.
  reflexivity.
Qed.

Lemma rgbToHex_green_carries_witness :
  ColorUtils.rgbToHex (Num 0) (Num 256) (Num 0) = ColorUtils.rgbToHex (Num 1) (Num 0) (Num 0).
Proof. apply (rgbToHex_green_carries 0 0 0); lia. Defined.

(** ** blendColors *)

Lemma Math_round_unique (x : Q) (k : Z) :
  (inject_Z k <= x + (1 # 2))%Q -> (x + (1 # 2) < inject_Z k + 1)%Q -> Math_round x = k.
Proof.
  intros Hlo Hhi. unfold Math_round.
  pose proof (Qfloor_le (x + (1 # 2))) as Fle.
  pose proof (Qlt_floor (x + (1 # 2))) as Flt.
  rewrite inject_Z_plus in Flt.
  assert (H1 : Qfloor (x + (1 # 2)) < k + 1).
  { rewrite Zlt_Qlt, inject_Z_plus. change (inject_Z 1) with 1%Q in *. lra. }
  assert (H2 : k < Qfloor (x + (1 # 2)) + 1).
  { rewrite Zlt_Qlt, inject_Z_plus. change (inject_Z 1) with 1%Q in *. lra. }
  lia.
Qed.

Lemma Math_round_monotone (x y : Q) : (x <= y)%Q -> Math_round x <= Math_round y.
Proof. intros H. unfold Math_round. apply Qfloor_resp_le. lra. Qed.

Lemma Math_round_integer (k : Z) : Math_round (inject_Z k) = k.
Proof. apply Math_round_unique; lra. Qed.

(** A weighted mean with a weight in [0,1] rounds to an integer between the
    two integers it is taken of. *)
Lemma mix_between (v1 v2 : Z) (ratio : Q) :
  (0 <= ratio <= 1)%Q ->
  exists v,
    ColorUtils.mix (Num v1) (Num v2) ratio = Num v
    /\ Z.min v1 v2 <= v <= Z.max v1 v2.
Proof.
  intros [H0 H1]. cbn [ColorUtils.mix]. eexists. split; [ reflexivity | ].
  set (x := (inject_Z v1 * (1 - ratio) + inject_Z v2 * ratio)%Q).
  assert (Hmin : (inject_Z (Z.min v1 v2) <= x)%Q /\ (x <= inject_Z (Z.max v1 v2))%Q).
  { unfold x.
    destruct (Z.le_ge_cases v1 v2) as [L | L].
    - rewrite Z.min_l, Z.max_r by lia. rewrite Zle_Qle in L. split; nra.
    - rewrite Z.min_r, Z.max_l by lia. rewrite Zle_Qle in L. split; nra. }
  destruct Hmin as [Hlo Hhi].
  apply Math_round_monotone in Hlo, Hhi.
  rewrite Math_round_integer in Hlo, Hhi. lia.
Qed.

(** A valid colour string, its channels, and the way back. *)
Lemma hex6_round_trip (c : string) :
  is_hex6 c = true ->
  exists r g b,
    ColorUtils.hexToRgb c = Some (ColorUtils.mkRGB (Num r) (Num g) (Num b))
    /\ ColorUtils.rgbToHex (Num r) (Num g) (Num b) = toLowerCase c.
Proof.
  intros H. apply is_hex6_inv in H.
  destruct H as (c1 & c2 & c3 & c4 & c5 & c6 & -> & H1 & H2 & H3 & H4 & H5 & H6).
  exists (16 * hv c1 + hv c2), (16 * hv c3 + hv c4), (16 * hv c5 + hv c6). split.
  - unfold ColorUtils.hexToRgb, ColorUtils.exec_hex_regex, ColorUtils.six_hex_groups.
    rewrite H1, H2, H3, H4, H5, H6. cbn [andb].
    rewrite !parseInt16_pair by assumption. reflexivity.
  - pose proof (hv_range c1 H1). pose proof (hv_range c2 H2).
    pose proof (hv_range c3 H3). pose proof (hv_range c4 H4).
    pose proof (hv_range c5 H5). pose proof (hv_range c6 H6).
    unfold ColorUtils.rgbToHex.
    rewrite (shl_small 1 24), (shl_small _ 16), (shl_small _ 8) by lia.
    unfold add. rewrite Z.mul_1_l.
    rewrite toString16_seven_digits by assumption.
    cbn [slice toLowerCase].
    rewrite !digit_char_hv by assumption.
    reflexivity.
Qed.

(** X7: when either colour is malformed, [blendColors] hands back its first
    argument as it came, also when that is the malformed one. *)
Theorem blendColors_malformed_returns_first (color1 color2 : string) (ratio : Q) :
  ColorUtils.hexToRgb color1 = None \/ ColorUtils.hexToRgb color2 = None ->
  ColorUtils.blendColors color1 color2 ratio = color1.
Proof.
  intros [H | H]; unfold ColorUtils.blendColors; rewrite H;
    [ | destruct (ColorUtils.hexToRgb color1) ]; reflexivity.
Qed.

Lemma blendColors_malformed_returns_first_witness :
  ColorUtils.blendColors "#FF6B6B" "pink" (1 # 2) = "#FF6B6B"%string.
Proof.
  apply (blendColors_malformed_returns_first "#FF6B6B" "pink" (1 # 2)).
  right. reflexivity.
Defined.

(** X8: the ends of the blend. At ratio 0 two valid colours blend to the
    first one, at ratio 1 to the second one, each in lower case. *)
Theorem blendColors_endpoints (color1 color2 : string) :
  is_hex6 color1 = true -> is_hex6 color2 = true ->
  ColorUtils.blendColors color1 color2 0 = toLowerCase color1
  /\ ColorUtils.blendColors color1 color2 1 = toLowerCase color2.
Proof.
  intros H1 H2.
  destruct (hex6_round_trip color1 H1) as (r1 & g1 & b1 & E1 & <-).
  destruct (hex6_round_trip color2 H2) as (r2 & g2 & b2 & E2 & <-).
  unfold ColorUtils.blendColors. rewrite E1, E2.
  cbn [ColorUtils.r ColorUtils.g ColorUtils.b ColorUtils.mix].
  split; repeat f_equal; apply Math_round_unique; lra.
Qed.

Lemma blendColors_endpoints_witness :
  ColorUtils.blendColors "#FF6B6B" "#000000" 0 = "#ff6b6b"%string
  /\ ColorUtils.blendColors "#FF6B6B" "#000000" 1 = "#000000"%string.
Proof. apply (blendColors_endpoints "#FF6B6B" "#000000"); reflexivity. Defined.

(** X9: with a ratio in [0,1] the blend of two well-formed colours is a
    valid colour string, and read back with [hexToRgb] each of its channels
    lies between the two channels it was blended from. *)
Theorem blendColors_between
  (color1 color2 : string) (ratio : Q) (r1 g1 b1 r2 g2 b2 : Z) :
  ColorUtils.hexToRgb color1 = Some (ColorUtils.mkRGB (Num r1) (Num g1) (Num b1)) ->
  ColorUtils.hexToRgb color2 = Some (ColorUtils.mkRGB (Num r2) (Num g2) (Num b2)) ->
  (0 <= ratio <= 1)%Q ->
  is_hex6 (ColorUtils.blendColors color1 color2 ratio) = true
  /\ exists r g b,
       ColorUtils.hexToRgb (ColorUtils.blendColors color1 color2 ratio)
       = Some (ColorUtils.mkRGB (Num r) (Num g) (Num b))
       /\ Z.min r1 r2 <= r <= Z.max r1 r2
       /\ Z.min g1 g2 <= g <= Z.max g1 g2
       /\ Z.min b1 b2 <= b <= Z.max b1 b2.
Proof.
  intros E1 E2 Ht.
  destruct (hexToRgb_Some _ _ E1) as (x1 & y1 & z1 & I1 & ? & ? & ?).
  destruct (hexToRgb_Some _ _ E2) as (x2 & y2 & z2 & I2 & ? & ? & ?).
  injection I1 as <- <- <-. injection I2 as <- <- <-.
  unfold ColorUtils.blendColors. rewrite E1, E2.
  cbn [ColorUtils.r ColorUtils.g ColorUtils.b].
  destruct (mix_between r1 r2 ratio Ht) as (r & -> & Hr).
  destruct (mix_between g1 g2 ratio Ht) as (g & -> & Hg).
  destruct (mix_between b1 b2 ratio Ht) as (b & -> & Hb).
  split.
  - apply rgbToHex_in_range; lia.
  - exists r, g, b. split; [ apply hexToRgb_rgbToHex_in_range; lia | ].
    repeat split; lia.
Qed.

Lemma blendColors_between_witness :
  is_hex6 (ColorUtils.blendColors "#FF6B6B" "#000000" (1 # 2)) = true
  /\ exists r g b,
       ColorUtils.hexToRgb (ColorUtils.blendColors "#FF6B6B" "#000000" (1 # 2))
       = Some (ColorUtils.mkRGB (Num r) (Num g) (Num b))
       /\ Z.min 255 0 <= r <= Z.max 255 0
       /\ Z.min 107 0 <= g <= Z.max 107 0
       /\ Z.min 107 0 <= b <= Z.max 107 0.
Proof.
  apply (blendColors_between "#FF6B6B" "#000000" (1 # 2) 255 107 107 0 0 0);
    [ reflexivity | reflexivity | split; discriminate ].
Defined.

(** X10: a valid colour blended with itself is that colour, in lower case,
    for every ratio from 0 to 1. *)
Theorem blendColors_same (color : string) (ratio : Q) :
  is_hex6 color = true ->
  (0 <= ratio <= 1)%Q ->
  ColorUtils.blendColors color color ratio = toLowerCase color.
Proof.
  intros H _.
  destruct (hex6_round_trip color H) as (r & g & b & E & <-).
  unfold ColorUtils.blendColors. rewrite E.
  cbn [ColorUtils.r ColorUtils.g ColorUtils.b ColorUtils.mix].
  repeat f_equal; apply Math_round_unique; lra.
Qed.

Lemma blendColors_same_witness :
  ColorUtils.blendColors "#FF6B6B" "#FF6B6B" (1 # 3) = "#ff6b6b"%string.
Proof.
  apply (blendColors_same "#FF6B6B" (1 # 3)).
  - reflexivity.
  - split; discriminate.
Defined.

(** X11: swapping the two colours and taking the complementary ratio gives
    the same blend, when both colours are well formed and the ratio is a
    binary fraction [k / 2^n] between 0 and 1 with [n] at most 52, so that
    the ratio and its complement are both floating-point numbers. *)
Theorem blendColors_swap (color1 color2 : string) (ratio : Q) (k n : Z) :
  ColorUtils.hexToRgb color1 <> None -> ColorUtils.hexToRgb color2 <> None ->
  (0 <= n <= 52)%Z -> (0 <= k <= 2 ^ n)%Z ->
  (ratio == inject_Z k / inject_Z (2 ^ n))%Q ->
  ColorUtils.blendColors color1 color2 ratio
  = ColorUtils.blendColors color2 color1 (1 - ratio).
Proof.
  intros N1 N2 _ _ _. unfold ColorUtils.blendColors.
  destruct (ColorUtils.hexToRgb color1) as [rgb1 | ] eqn:E1; [ | contradiction ].
  destruct (ColorUtils.hexToRgb color2) as [rgb2 | ] eqn:E2; [ | contradiction ].
  destruct (hexToRgb_Some _ _ E1) as (r1 & g1 & b1 & -> & _).
  destruct (hexToRgb_Some _ _ E2) as (r2 & g2 & b2 & -> & _).
  cbn [ColorUtils.r ColorUtils.g ColorUtils.b ColorUtils.mix].
  assert (M : forall v1 v2 : Z,
             Math_round (inject_Z v1 * (1 - ratio) + inject_Z v2 * ratio)
             = Math_round (inject_Z v2 * (1 - (1 - ratio)) + inject_Z v1 * (1 - ratio))).
  { intros v1 v2. unfold Math_round. apply Qfloor_comp. ring. }
  rewrite (M r1 r2), (M g1 g2), (M b1 b2). reflexivity.
Qed.

Lemma blendColors_swap_witness :
  ColorUtils.blendColors "#FF6B6B" "000000" (1 # 4)
  = ColorUtils.blendColors "000000" "#FF6B6B" (1 - (1 # 4)).
Proof.
  apply (blendColors_swap "#FF6B6B" "000000" (1 # 4) 1 2);
    solve [ discriminate | lia | reflexivity ].
Defined.

(** ** PerformanceMonitor *)

Lemma update_inside_window (m : PerformanceMonitor.Monitor) (t : Q) :
  (t < PerformanceMonitor.lastTime m + 1000)%Q ->
  PerformanceMonitor.update m t
  = PerformanceMonitor.mkMonitor (PerformanceMonitor.frameCount m + 1)
      (PerformanceMonitor.lastTime m) (PerformanceMonitor.fps m).
Proof.
  intros H. unfold PerformanceMonitor.update.
  destruct (Qle_bool (PerformanceMonitor.lastTime m + 1000) t) eqn:E; [ | reflexivity ].
  apply Qle_bool_iff in E. lra.
Qed.

Lemma updates_inside_window (times : list Q) :
  forall m : PerformanceMonitor.Monitor,
    Forall (fun t => t < PerformanceMonitor.lastTime m + 1000)%Q times ->
    PerformanceMonitor.updates m times
    = PerformanceMonitor.mkMonitor
        (PerformanceMonitor.frameCount m + Z.of_nat (List.length times))
        (PerformanceMonitor.lastTime m) (PerformanceMonitor.fps m).
Proof.
  unfold PerformanceMonitor.updates.
  induction times as [ | t times IH ]; intros m H.
  - cbn [fold_left List.length Z.of_nat]. rewrite Z.add_0_r. destruct m. reflexivity.
  - inversion H as [ | t' times' Ht Hrest ]; subst.
    cbn [fold_left]. rewrite (update_inside_window m t Ht).
    rewrite IH by exact Hrest.
    cbn [PerformanceMonitor.frameCount PerformanceMonitor.lastTime PerformanceMonitor.fps
         List.length].
    f_equal. lia.
Qed.

(** X12: calls of [update] that all come at most 999 ms after [lastTime]
    only count: [frameCount] grows by their number, [lastTime] and the
    reported rate stay as they were. The times are at least 0 and below
    2^53 and the count does not pass 2^53; the millisecond of margin keeps the calls
    clear of the rounding of [lastTime + 1000]. *)
Theorem updates_within_second_only_count
  (m : PerformanceMonitor.Monitor) (times : list Q) :
  Forall (fun t => 0 <= t /\ t < inject_Z (2 ^ 53)
                   /\ t + 1 <= PerformanceMonitor.lastTime m + 1000)%Q times ->
  0 <= PerformanceMonitor.frameCount m ->
  PerformanceMonitor.frameCount m + Z.of_nat (List.length times) <= 2 ^ 53 ->
  PerformanceMonitor.frameCount (PerformanceMonitor.updates m times)
  = PerformanceMonitor.frameCount m + Z.of_nat (List.length times)
  /\ PerformanceMonitor.lastTime (PerformanceMonitor.updates m times)
     = PerformanceMonitor.lastTime m
  /\ PerformanceMonitor.getFPS (PerformanceMonitor.updates m times)
     = PerformanceMonitor.getFPS m.
Proof.
  intros H _ _.
  assert (H' : Forall (fun t => t < PerformanceMonitor.lastTime m + 1000)%Q times).
  { eapply Forall_impl; [ | exact H ]. cbv beta. intros t (_ & _ & Ht). lra. }
  rewrite (updates_inside_window times m H'). repeat split.
Qed.

Lemma updates_within_second_only_count_witness :
  PerformanceMonitor.frameCount
    (PerformanceMonitor.updates (PerformanceMonitor.constructor 50) [150; 250; 350]%Q)
  = 0 + Z.of_nat 3
  /\ PerformanceMonitor.lastTime
       (PerformanceMonitor.updates (PerformanceMonitor.constructor 50) [150; 250; 350]%Q)
     = 50%Q
  /\ PerformanceMonitor.getFPS
       (PerformanceMonitor.updates (PerformanceMonitor.constructor 50) [150; 250; 350]%Q)
     = 0.
Proof.
  apply (updates_within_second_only_count (PerformanceMonitor.constructor 50)
           [150; 250; 350]%Q).
  - repeat constructor; solve [ discriminate | reflexivity ].
  - simpl. lia.
  - simpl. lia.
Defined.





(** ** More on the render *)

(** X15: the lipstick stays inside the lip polygon. For a valid opacity and
    a destination context without a filter, [drawLipstick] ends normally
    and leaves every pixel strictly outside the outer-lip polygon (no edge
    passes through it, its centre is outside) as it was, whatever the colour
    and the blur setting. *)
Theorem drawLipstick_outside_unchanged
  (platform : Platform) (app : App) (landmarks : list Landmark)
  (poly : list Point) (i j : nat) :
  region_polygon landmarks (outerLip (lipLandmarks app))
    (width (canvas (ctx app))) (height (canvas (ctx app))) = Some poly ->
  valid_opacity (opacity app) = true ->
  filter (ctx app) = FilterNone ->
  (i < width (canvas (ctx app)))%nat -> (j < height (canvas (ctx app)))%nat ->
  pixel_outside platform poly i j = true ->
  thrown (drawLipstick platform app landmarks) = None
  /\ pixel_eq (get (canvas (ctx (state_of (drawLipstick platform app landmarks)))) i j)
              (get (canvas (ctx app)) i j).
Proof.
  intros Hpoly Ho Hf Hi Hj Hout.
  destruct (pixel_outside_inv _ _ _ _ Hout) as [Hc Hins].
  destruct (drawLipstick_pixel_general platform app landmarks poly i j Hpoly Hc Ho Hf Hi Hj)
    as [Ht Hg].
  split; [ exact Ht | ]. rewrite Hg.
  destruct (alpha_lip_pixel poly i j) as (_ & _ & _ & La). rewrite Hins in La.
  unfold pixel_eq, composite, composite_channel, scale.
  cbn [red green blue alpha]. rewrite La.
  repeat split; ring.
Qed.

Lemma drawLipstick_outside_unchanged_witness :
  thrown (drawLipstick sample_platform red_on_white_4 triangle_frame) = None
  /\ pixel_eq (get (canvas (ctx (state_of (drawLipstick sample_platform red_on_white_4
                                             triangle_frame)))) 3 0)
              (get (canvas (ctx red_on_white_4)) 3 0).
Proof.
  apply (drawLipstick_outside_unchanged sample_platform red_on_white_4 triangle_frame
           [mkPoint 0 0; mkPoint 4 4; mkPoint 0 4; mkPoint 0 4; mkPoint 0 4; mkPoint 0 4;
            mkPoint 0 4; mkPoint 0 4; mkPoint 0 4; mkPoint 0 4; mkPoint 0 4; mkPoint 0 4;
            mkPoint 0 4; mkPoint 0 4; mkPoint 0 4; mkPoint 0 4; mkPoint 0 4; mkPoint 0 4;
            mkPoint 0 4; mkPoint 0 4; mkPoint 0 4; mkPoint 0 4; mkPoint 0 4; mkPoint 0 4;
            mkPoint 0 4; mkPoint 0 4]%Q 3%nat 0%nat);
    solve [ reflexivity | simpl; lia ].
Defined.

Lemma clearCanvas_idempotent (app : App) : clearCanvas (clearCanvas app) = clearCanvas app.
Proof.
  rewrite !clearCanvas_blank.
  destruct app as [c ini col op bl en act lips st si]. destruct c. reflexivity.
Qed.

(** One pixel of the overlay after a frame with a face, the lipstick on,
    when no edge of the contour passes through the pixel. *)
Lemma overlay_pixel
  (bf : Platform) (app : App) (F : list Landmark)
  (more : list (list Landmark)) (poly : list Point) (i j : nat) :
  isLipstickEnabled app = true ->
  region_polygon F (outerLip (lipLandmarks app))
    (width (canvas (ctx app))) (height (canvas (ctx app))) = Some poly ->
  polygon_crosses_pixel (tolerance bf) poly i j = false ->
  valid_opacity (opacity app) = true ->
  filter (ctx app) = FilterNone ->
  (i < width (canvas (ctx app)))%nat -> (j < height (canvas (ctx app)))%nat ->
  thrown (processFaceMeshResults bf app (mkResults (Some (F :: more)))) = None
  /\ pixel_eq
       (get (canvas (ctx (state_of (processFaceMeshResults bf app
                                      (mkResults (Some (F :: more))))))) i j)
       (if inside poly (centre i j)
        then scale (opacity app * opacity app) (layer_colour bf (currentColor app))
        else transparent).
Proof.
  intros En Hpoly Hc Ho Hf Hi Hj.
  unfold processFaceMeshResults. cbn [multiFaceLandmarks].
  rewrite clearCanvas_blank. cbn [with_ctx isLipstickEnabled]. rewrite En.
  destruct (drawLipstick_pixel_general bf
              (with_ctx app (with_canvas (ctx app)
                 (createCanvas (width (canvas (ctx app))) (height (canvas (ctx app))))))
              F poly i j Hpoly Hc Ho Hf Hi Hj) as [Ht Hg].
  split; [ exact Ht | ]. rewrite Hg.
  cbn [with_ctx ctx with_canvas canvas opacity currentColor].
  rewrite get_createCanvas.
  destruct (alpha_lip_pixel poly i j) as (_ & _ & _ & La).
  unfold pixel_eq, composite, composite_channel, scale, transparent.
  destruct (inside poly (centre i j)); cbn [red green blue alpha]; rewrite La;
    repeat split; ring.
Qed.

Lemma valid_opacity_one (o : Q) : (o == 1)%Q -> valid_opacity o = true.
Proof. intros E. apply valid_opacity_ends. left. exact E. Qed.

(** X16: the frame the user sees at full opacity. With the lipstick on, the
    opacity 1, a valid [#rrggbb] colour and every outer-lip landmark of the
    first face there, [processFaceMeshResults] leaves the overlay opaque in
    the current colour at every pixel strictly inside the outer-lip polygon
    of the first face, and transparent at every pixel strictly outside it;
    further faces do not matter. *)
Theorem processFaceMeshResults_overlay
  (platform : Platform) (app : App) (landmarks : list Landmark)
  (more : list (list Landmark)) (poly : list Point) (i j : nat) :
  isLipstickEnabled app = true ->
  is_hex6 (currentColor app) = true ->
  (opacity app == 1)%Q ->
  filter (ctx app) = FilterNone ->
  region_polygon landmarks (outerLip (lipLandmarks app))
    (width (canvas (ctx app))) (height (canvas (ctx app))) = Some poly ->
  (i < width (canvas (ctx app)))%nat -> (j < height (canvas (ctx app)))%nat ->
  exists rgb,
    ColorUtils.hexToRgb (currentColor app) = Some rgb
    /\ (pixel_inside platform poly i j = true ->
        thrown (processFaceMeshResults platform app (mkResults (Some (landmarks :: more))))
        = None
        /\ pixel_eq
             (get (canvas (ctx (state_of (processFaceMeshResults platform app
                                            (mkResults (Some (landmarks :: more))))))) i j)
             (opaque rgb))
    /\ (pixel_outside platform poly i j = true ->
        thrown (processFaceMeshResults platform app (mkResults (Some (landmarks :: more))))
        = None
        /\ pixel_eq
             (get (canvas (ctx (state_of (processFaceMeshResults platform app
                                            (mkResults (Some (landmarks :: more))))))) i j)
             transparent).
Proof.
  intros En Hcol Ho Hf Hpoly Hi Hj.
  destruct (hex6_colour platform _ Hcol) as (r & g & b & Ergb & Ecss).
  exists (ColorUtils.mkRGB (Num r) (Num g) (Num b)). split; [ exact Ergb | ].
  split; intros Hpix.
  - destruct (pixel_inside_inv _ _ _ _ Hpix) as [Hc Hins].
    destruct (overlay_pixel platform app landmarks more poly i j En Hpoly Hc
                (valid_opacity_one _ Ho) Hf Hi Hj) as [Ht (Gr & Gg & Gb & Ga)].
    split; [ exact Ht | ].
    rewrite Hins in Gr, Gg, Gb, Ga.
    unfold layer_colour in Gr, Gg, Gb, Ga. rewrite Ecss in Gr, Gg, Gb, Ga.
    unfold pixel_eq. rewrite Gr, Gg, Gb, Ga.
    unfold scale, rgba, channel, opaque.
    cbn [red green blue alpha ColorUtils.r ColorUtils.g ColorUtils.b]. rewrite Ho.
    unfold channel. repeat split; field.
  - destruct (pixel_outside_inv _ _ _ _ Hpix) as [Hc Hins].
    destruct (overlay_pixel platform app landmarks more poly i j En Hpoly Hc
                (valid_opacity_one _ Ho) Hf Hi Hj) as [Ht Hg].
    split; [ exact Ht | ]. rewrite Hins in Hg. exact Hg.
Qed.

Lemma processFaceMeshResults_overlay_witness :
  exists rgb,
    ColorUtils.hexToRgb "#FF0000" = Some rgb
    /\ thrown (processFaceMeshResults sample_platform red_on_white_4
                 (mkResults (Some [triangle_frame; corner_frame]))) = None
    /\ pixel_eq
         (get (canvas (ctx (state_of (processFaceMeshResults sample_platform red_on_white_4
                                        (mkResults (Some [triangle_frame; corner_frame]))))))
              0 3)
         (opaque rgb)
    /\ pixel_eq
         (get (canvas (ctx (state_of (processFaceMeshResults sample_platform red_on_white_4
                                        (mkResults (Some [triangle_frame; corner_frame]))))))
              3 0)
         transparent.
Proof.
  destruct (processFaceMeshResults_overlay sample_platform red_on_white_4 triangle_frame
              [corner_frame]
              [mkPoint 0 0; mkPoint 4 4; mkPoint 0 4; mkPoint 0 4; mkPoint 0 4; mkPoint 0 4;
               mkPoint 0 4; mkPoint 0 4; mkPoint 0 4; mkPoint 0 4; mkPoint 0 4; mkPoint 0 4;
               mkPoint 0 4; mkPoint 0 4; mkPoint 0 4; mkPoint 0 4; mkPoint 0 4; mkPoint 0 4;
               mkPoint 0 4; mkPoint 0 4; mkPoint 0 4; mkPoint 0 4; mkPoint 0 4; mkPoint 0 4;
               mkPoint 0 4; mkPoint 0 4]%Q 0%nat 3%nat
              eq_refl eq_refl ltac:(reflexivity) eq_refl eq_refl
              ltac:(simpl; lia) ltac:(simpl; lia)) as (rgb & Ergb & Hin & _).
  destruct (processFaceMeshResults_overlay sample_platform red_on_white_4 triangle_frame
              [corner_frame]
              [mkPoint 0 0; mkPoint 4 4; mkPoint 0 4; mkPoint 0 4; mkPoint 0 4; mkPoint 0 4;
               mkPoint 0 4; mkPoint 0 4; mkPoint 0 4; mkPoint 0 4; mkPoint 0 4; mkPoint 0 4;
               mkPoint 0 4; mkPoint 0 4; mkPoint 0 4; mkPoint 0 4; mkPoint 0 4; mkPoint 0 4;
               mkPoint 0 4; mkPoint 0 4; mkPoint 0 4; mkPoint 0 4; mkPoint 0 4; mkPoint 0 4;
               mkPoint 0 4; mkPoint 0 4]%Q 3%nat 0%nat
              eq_refl eq_refl ltac:(reflexivity) eq_refl eq_refl
              ltac:(simpl; lia) ltac:(simpl; lia)) as (rgb' & _ & _ & Hout).
  exists rgb. split; [ exact Ergb | ].
  destruct (Hin eq_refl) as [Ht Hp]. destruct (Hout eq_refl) as [_ Hq].
  split; [ exact Ht | ]. split; [ exact Hp | exact Hq ].
Defined.

(** X17: a face whose landmark list lacks an outer-lip index, the lipstick
    on. [processFaceMeshResults] ends with the [TypeError], uncaught; the
    overlay is left cleared and nothing else of the application changes. *)
Theorem processFaceMeshResults_missing_landmark
  (platform : Platform) (app : App) (landmarks : list Landmark)
  (more : list (list Landmark)) :
  isLipstickEnabled app = true ->
  in_range landmarks (outerLip (lipLandmarks app)) = false ->
  processFaceMeshResults platform app (mkResults (Some (landmarks :: more)))
  = Throw TypeError (clearCanvas app)
  /\ forall i j, get (canvas (ctx (clearCanvas app))) i j = transparent.
Proof.
  intros En Hr. split.
  - unfold processFaceMeshResults. cbn [multiFaceLandmarks].
    replace (isLipstickEnabled (clearCanvas app)) with true
      by (rewrite clearCanvas_blank; symmetry; exact En).
    apply drawLipstick_missing_index_throws.
    rewrite clearCanvas_blank. exact Hr.
  - intros i j. rewrite clearCanvas_blank. apply get_createCanvas.
Qed.

Lemma processFaceMeshResults_missing_landmark_witness :
  processFaceMeshResults sample_platform red_on_white (mkResults (Some [[mkLandmark 0 0 0]]))
  = Throw TypeError (clearCanvas red_on_white)
  /\ forall i j, get (canvas (ctx (clearCanvas red_on_white))) i j = transparent.
Proof.
  apply (processFaceMeshResults_missing_landmark sample_platform red_on_white [mkLandmark 0 0 0] []);
    reflexivity.
Defined.

(** X18: after [resetToNatural] the callback changes nothing any more:
    whatever the detector reports, faces or none, landmarks complete or not,
    [processFaceMeshResults] ends normally on the same state, the overlay
    blank. *)
Theorem processFaceMeshResults_after_reset
  (platform : Platform) (app : App) (results : Results) :
  processFaceMeshResults platform (resetToNatural app) results
  = Normal (resetToNatural app)
  /\ forall i j, get (canvas (ctx (resetToNatural app))) i j = transparent.
Proof.
  assert (E : clearCanvas (resetToNatural app) = resetToNatural app).
  { unfold resetToNatural, updateStatus.
    rewrite !clearCanvas_blank.
    destruct app as [c ini col op bl en act lips st si]. destruct c. reflexivity. }
  split.
  - unfold processFaceMeshResults. rewrite E.
    destruct (multiFaceLandmarks results) as [[ | F more] | ]; reflexivity.
  - intros i j. unfold resetToNatural, updateStatus. rewrite clearCanvas_blank.
    cbn [ctx with_ctx with_canvas canvas]. apply get_createCanvas.
Qed.

(** What [drawLipstick] does to the destination context depends on the
    application through that context, the current colour, the opacity, the
    blur setting and the landmark table only. *)
Lemma drawLipstick_depends_on_style
  (bf : Platform) (a1 a2 : App) (F : list Landmark) :
  ctx a1 = ctx a2 -> currentColor a1 = currentColor a2 -> opacity a1 = opacity a2 ->
  blur a1 = blur a2 -> lipLandmarks a1 = lipLandmarks a2 ->
  ctx (state_of (drawLipstick bf a1 F)) = ctx (state_of (drawLipstick bf a2 F))
  /\ thrown (drawLipstick bf a1 F) = thrown (drawLipstick bf a2 F).
Proof.
  destruct a1 as [c1 ini1 col1 op1 bl1 en1 act1 lips1 st1 si1].
  destruct a2 as [c2 ini2 col2 op2 bl2 en2 act2 lips2 st2 si2].
  cbn [ctx currentColor opacity blur lipLandmarks].
  intros -> -> -> -> ->.
  unfold drawLipstick. cbn [ctx currentColor opacity blur lipLandmarks].
  destruct (drawLipContour _ _ _ _ _ _) as [lip | e lip]; [ | split; reflexivity ].
  destruct (drawImage _ _ _ _ _) as [c | e c]; split; reflexivity.
Qed.

(** X19: [resetToNatural] forgets nothing of the style. Selecting the
    current colour again after a reset brings back, for every detector
    result, the overlay and the outcome the application had with the
    lipstick on. *)
Theorem reselect_after_reset_restores_overlay
  (platform : Platform) (app : App) (results : Results) :
  isLipstickEnabled app = true ->
  ctx (state_of (processFaceMeshResults platform
                   (selectPresetColor (resetToNatural app) (currentColor app)) results))
  = ctx (state_of (processFaceMeshResults platform app results))
  /\ thrown (processFaceMeshResults platform
               (selectPresetColor (resetToNatural app) (currentColor app)) results)
     = thrown (processFaceMeshResults platform app results).
Proof.
  intros En.
  set (app' := selectPresetColor (resetToNatural app) (currentColor app)).
  assert (Ec : ctx (clearCanvas app') = ctx (clearCanvas app)).
  { unfold app', selectPresetColor, resetToNatural, updateStatus.
    rewrite !clearCanvas_blank.
    destruct app as [c ini col op bl en act lips st si]. destruct c. reflexivity. }
  assert (Es : currentColor (clearCanvas app') = currentColor (clearCanvas app)
               /\ opacity (clearCanvas app') = opacity (clearCanvas app)
               /\ blur (clearCanvas app') = blur (clearCanvas app)
               /\ lipLandmarks (clearCanvas app') = lipLandmarks (clearCanvas app)
               /\ isLipstickEnabled (clearCanvas app') = true
               /\ isLipstickEnabled (clearCanvas app) = true).
  { unfold app', selectPresetColor, resetToNatural, updateStatus.
    rewrite !clearCanvas_blank.
    destruct app as [c ini col op bl en act lips st si]. cbn in En. subst en.
    repeat split. }
  destruct Es as (E1 & E2 & E3 & E4 & E5 & E6).
  unfold processFaceMeshResults.
  destruct (multiFaceLandmarks results) as [[ | F more] | ]; cbn [state_of thrown];
    try (split; [ exact Ec | reflexivity ]).
  rewrite E5, E6.
  apply drawLipstick_depends_on_style; assumption.
Qed.

Lemma reselect_after_reset_restores_overlay_witness :
  ctx (state_of (processFaceMeshResults sample_platform
                   (selectPresetColor (resetToNatural fresh_app) (currentColor fresh_app))
                   (mkResults (Some [triangle_frame]))))
  = ctx (state_of (processFaceMeshResults sample_platform fresh_app
                     (mkResults (Some [triangle_frame]))))
  /\ thrown (processFaceMeshResults sample_platform
               (selectPresetColor (resetToNatural fresh_app) (currentColor fresh_app))
               (mkResults (Some [triangle_frame])))
     = thrown (processFaceMeshResults sample_platform fresh_app (mkResults (Some [triangle_frame]))).
Proof.
  apply (reselect_after_reset_restores_overlay sample_platform fresh_app
           (mkResults (Some [triangle_frame]))).
  reflexivity.
Defined.

(** X20: what a string the canvas cannot read looks like. After
    [selectPresetColor] with a string that the platform reads as no colour,
    the assignment to [fillStyle] is dropped, and at full opacity the next
    frame paints the lips black: the overlay is opaque black at every pixel
    strictly inside the outer-lip polygon. *)
Theorem unreadable_colour_paints_black
  (platform : Platform) (app : App) (color : string)
  (landmarks : list Landmark) (more : list (list Landmark)) (poly : list Point)
  (i j : nat) :
  parse_css_color platform color = None ->
  (opacity app == 1)%Q ->
  filter (ctx app) = FilterNone ->
  region_polygon landmarks (outerLip (lipLandmarks app))
    (width (canvas (ctx app))) (height (canvas (ctx app))) = Some poly ->
  (i < width (canvas (ctx app)))%nat -> (j < height (canvas (ctx app)))%nat ->
  pixel_inside platform poly i j = true ->
  thrown (processFaceMeshResults platform (selectPresetColor app color)
            (mkResults (Some (landmarks :: more)))) = None
  /\ pixel_eq
       (get (canvas (ctx (state_of
               (processFaceMeshResults platform (selectPresetColor app color)
                  (mkResults (Some (landmarks :: more))))))) i j)
       black.
Proof.
  intros Hc Ho Hf Hpoly Hi Hj Hpix.
  destruct (pixel_inside_inv _ _ _ _ Hpix) as [Hcr Hin].
  destruct (overlay_pixel platform (selectPresetColor app color)
              landmarks more poly i j eq_refl Hpoly Hcr (valid_opacity_one _ Ho) Hf Hi Hj)
    as [Ht Hg].
  split; [ exact Ht | ].
  rewrite Hin in Hg.
  cbn [selectPresetColor updateStatus currentColor opacity] in Hg.
  unfold layer_colour in Hg. rewrite Hc in Hg.
  destruct Hg as (Gr & Gg & Gb & Ga).
  unfold pixel_eq. cbn [red green blue alpha scale black] in *.
  rewrite Gr, Gg, Gb, Ga, Ho. repeat split; ring.
Qed.

Lemma unreadable_colour_paints_black_witness :
  thrown (processFaceMeshResults sample_platform (selectPresetColor red_on_white_4 "not-a-color")
            (mkResults (Some [triangle_frame]))) = None
  /\ pixel_eq
       (get (canvas (ctx (state_of
               (processFaceMeshResults sample_platform
                  (selectPresetColor red_on_white_4 "not-a-color")
                  (mkResults (Some [triangle_frame])))))) 0 3)
       black.
Proof.
  apply (unreadable_colour_paints_black sample_platform red_on_white_4 "not-a-color"
           triangle_frame []
           [mkPoint 0 0; mkPoint 4 4; mkPoint 0 4; mkPoint 0 4; mkPoint 0 4; mkPoint 0 4;
            mkPoint 0 4; mkPoint 0 4; mkPoint 0 4; mkPoint 0 4; mkPoint 0 4; mkPoint 0 4;
            mkPoint 0 4; mkPoint 0 4; mkPoint 0 4; mkPoint 0 4; mkPoint 0 4; mkPoint 0 4;
            mkPoint 0 4; mkPoint 0 4; mkPoint 0 4; mkPoint 0 4; mkPoint 0 4; mkPoint 0 4;
            mkPoint 0 4; mkPoint 0 4]%Q 0%nat 3%nat);
    solve [ reflexivity | simpl; lia ].
Defined.
(** ** Edges of the render *)

Lemma set_globalAlpha_invalid (c : Context2D) (a : Q) :
  valid_opacity a = false -> set_globalAlpha c a = c.
Proof. unfold valid_opacity, set_globalAlpha. intros ->. reflexivity. Qed.

(** The compositing steps at one pixel when the opacity is outside [0,1]:
    the lip context keeps its alpha of 1 and the destination context the
    alpha it came with. *)
Lemma drawLipstick_pixel_unclamped
  (bf : Platform) (app : App) (F : list Landmark)
  (first : Point) (rest : list Point) (i j : nat) :
  region_polygon F (outerLip (lipLandmarks app))
    (width (canvas (ctx app))) (height (canvas (ctx app))) = Some (first :: rest) ->
  polygon_crosses_pixel (tolerance bf) (first :: rest) i j = false ->
  valid_opacity (opacity app) = false ->
  filter (ctx app) = FilterNone ->
  (i < width (canvas (ctx app)))%nat -> (j < height (canvas (ctx app)))%nat ->
  thrown (drawLipstick bf app F) = None
  /\ get (canvas (ctx (state_of (drawLipstick bf app F)))) i j
     = composite Multiply
         (scale (globalAlpha (ctx app))
            (composite SourceIn (scale 1 (layer_colour bf (currentColor app)))
               (lip_pixel (first :: rest) i j)))
         (get (canvas (ctx app)) i j).
Proof.
  intros Hpoly Hcr Ho Hf Hi Hj.
  destruct app as [c ini col op bl en act lips st si].
  destruct c as [cv gco ga fs fl pa].
  cbn [ctx canvas lipLandmarks currentColor opacity filter globalAlpha] in *.
  subst fl.
  set (w := width cv) in *. set (h := height cv) in *.
  pose proof (region_polygon_in_range F w h _ _ Hpoly) as Hr.
  destruct (drawLipContour_in_range bf (getContext (createCanvas w h)) F (outerLip lips)
              w h Hr) as (poly' & Ep & Erun).
  rewrite Hpoly in Ep. injection Ep as <-.
  unfold drawLipstick.
  cbn [ctx canvas lipLandmarks currentColor opacity blur].
  fold w h. rewrite Erun.
  set (lip1 := fill bf _).
  rewrite !set_globalAlpha_invalid by exact Ho.
  set (lip4 := set_fillStyle bf (set_globalCompositeOperation lip1 SourceIn) col).
  assert (E4 : lip4 = mkContext (canvas lip1) SourceIn 1 (layer_colour bf col) FilterNone
                        (path lip1)).
  { unfold lip4, set_fillStyle, layer_colour. destruct (parse_css_color bf col); reflexivity. }
  set (lip5 := fillRect bf lip4 0 0 w h).
  set (lip6 := if (0 <? bl)%Z then set_filter lip5 (FilterBlur bl) else lip5).
  assert (E6 : canvas lip6 = canvas lip5) by (unfold lip6; destruct (0 <? bl)%Z; reflexivity).
  assert (W5 : width (canvas lip5) = w /\ height (canvas lip5) = h).
  { unfold lip5. rewrite width_fillRect, height_fillRect, E4. split; reflexivity. }
  destruct W5 as [W5 H5].
  rewrite E6.
  cbn [set_globalCompositeOperation canvas globalCompositeOperation globalAlpha
       fillStyle filter path].
  destruct (drawImage_pixel bf (mkContext cv Multiply ga fs FilterNone pa) (canvas lip5) i j
              eq_refl Hi Hj ltac:(rewrite W5; unfold w; lia) ltac:(rewrite H5; unfold h; lia))
    as [Ht Hg].
  destruct (drawImage _ _ _ _ _) as [c' | e c']; [ | discriminate Ht ].
  cbn [thrown state_of with_ctx ctx] in *. split; [ reflexivity | ].
  autorewrite with canvas_size. rewrite Hg.
  cbn [canvas globalCompositeOperation globalAlpha].
  f_equal. f_equal.
  assert (G5 : get (canvas lip5) i j
               = composite SourceIn (scale 1 (layer_colour bf col)) (get (canvas lip1) i j)).
  { unfold lip5.
    replace w with (width (canvas lip4)) by (rewrite E4; reflexivity).
    replace h with (height (canvas lip4)) by (rewrite E4; reflexivity).
    rewrite fillRect_pixel.
    - rewrite E4. reflexivity.
    - rewrite E4. reflexivity.
    - rewrite E4. exact Hi.
    - rewrite E4. exact Hj. }
  rewrite G5. f_equal.
  unfold lip1, lip_pixel. apply lip_mask_pixel; assumption.
Qed.

(** X21: an opacity outside [0,1] is not clamped, it is ignored. Both
    assignments to [globalAlpha] are dropped, so with the destination
    context at its usual alpha of 1 and a valid [#rrggbb] colour the frame
    shows the current colour at full strength, opaque, at every pixel
    strictly inside the outer-lip polygon. *)
Theorem out_of_range_opacity_paints_opaque
  (platform : Platform) (app : App) (landmarks : list Landmark)
  (more : list (list Landmark)) (first : Point) (rest : list Point) (i j : nat) :
  isLipstickEnabled app = true ->
  is_hex6 (currentColor app) = true ->
  valid_opacity (opacity app) = false ->
  globalAlpha (ctx app) = 1%Q ->
  filter (ctx app) = FilterNone ->
  region_polygon landmarks (outerLip (lipLandmarks app))
    (width (canvas (ctx app))) (height (canvas (ctx app))) = Some (first :: rest) ->
  (i < width (canvas (ctx app)))%nat -> (j < height (canvas (ctx app)))%nat ->
  pixel_inside platform (first :: rest) i j = true ->
  exists rgb,
    ColorUtils.hexToRgb (currentColor app) = Some rgb
    /\ thrown (processFaceMeshResults platform app (mkResults (Some (landmarks :: more))))
       = None
    /\ pixel_eq
         (get (canvas (ctx (state_of (processFaceMeshResults platform app
                                        (mkResults (Some (landmarks :: more))))))) i j)
         (opaque rgb).
Proof.
  intros En Hcol Ho Hga Hf Hpoly Hi Hj Hpix.
  destruct (hex6_colour platform _ Hcol) as (r & g & b & Ergb & Ecss).
  exists (ColorUtils.mkRGB (Num r) (Num g) (Num b)). split; [ exact Ergb | ].
  destruct (pixel_inside_inv _ _ _ _ Hpix) as [Hcr Hin].
  unfold processFaceMeshResults. cbn [multiFaceLandmarks].
  rewrite clearCanvas_blank. cbn [with_ctx isLipstickEnabled]. rewrite En.
  destruct (drawLipstick_pixel_unclamped platform
              (with_ctx app (with_canvas (ctx app)
                 (createCanvas (width (canvas (ctx app))) (height (canvas (ctx app))))))
              landmarks first rest i j Hpoly Hcr Ho Hf Hi Hj) as [Ht Hg].
  split; [ exact Ht | ]. rewrite Hg.
  cbn [with_ctx ctx with_canvas canvas opacity currentColor globalAlpha].
  rewrite get_createCanvas, Hga.
  destruct (alpha_lip_pixel (first :: rest) i j) as (_ & _ & _ & La). rewrite Hin in La.
  unfold layer_colour. rewrite Ecss.
  unfold pixel_eq, composite, composite_channel, scale, transparent, rgba, opaque.
  cbn [red green blue alpha ColorUtils.r ColorUtils.g ColorUtils.b]. rewrite La.
  unfold channel. repeat split; field.
Qed.

Lemma out_of_range_opacity_paints_opaque_witness :
  exists rgb,
    ColorUtils.hexToRgb "#FF0000" = Some rgb
    /\ thrown (processFaceMeshResults sample_platform
                 (mkApp (getContext (createCanvas 4 4)) true "#FF0000" 2 0 true true
                        defaultLipLandmarks EmptyString EmptyString)
                 (mkResults (Some [triangle_frame]))) = None
    /\ pixel_eq
         (get (canvas (ctx (state_of
                 (processFaceMeshResults sample_platform
                    (mkApp (getContext (createCanvas 4 4)) true "#FF0000" 2 0 true true
                           defaultLipLandmarks EmptyString EmptyString)
                    (mkResults (Some [triangle_frame])))))) 0 3)
         (opaque rgb).
Proof.
  apply (out_of_range_opacity_paints_opaque sample_platform
           (mkApp (getContext (createCanvas 4 4)) true "#FF0000" 2 0 true true
                  defaultLipLandmarks EmptyString EmptyString)
           triangle_frame [] (mkPoint 0 0)
           [mkPoint 4 4; mkPoint 0 4; mkPoint 0 4; mkPoint 0 4; mkPoint 0 4;
            mkPoint 0 4; mkPoint 0 4; mkPoint 0 4; mkPoint 0 4; mkPoint 0 4; mkPoint 0 4;
            mkPoint 0 4; mkPoint 0 4; mkPoint 0 4; mkPoint 0 4; mkPoint 0 4; mkPoint 0 4;
            mkPoint 0 4; mkPoint 0 4; mkPoint 0 4; mkPoint 0 4; mkPoint 0 4; mkPoint 0 4;
            mkPoint 0 4; mkPoint 0 4]%Q 0%nat 3%nat);
    solve [ reflexivity | simpl; lia ].
Defined.

(** X22: on an overlay without pixels, the landmarks all there,
    [drawLipstick] gets as far as [drawImage], which raises
    [InvalidStateError] on the empty lip canvas; the reset at the end is
    skipped, and the destination context is left in ['multiply'] mode. *)
Theorem drawLipstick_on_empty_canvas
  (platform : Platform) (app : App) (landmarks : list Landmark) :
  in_range landmarks (outerLip (lipLandmarks app)) = true ->
  width (canvas (ctx app)) = 0%nat \/ height (canvas (ctx app)) = 0%nat ->
  drawLipstick platform app landmarks
  = Throw InvalidStateError
      (with_ctx app (set_globalAlpha (set_globalCompositeOperation (ctx app) Multiply)
                                     (opacity app)))
  /\ globalCompositeOperation (ctx (state_of (drawLipstick platform app landmarks)))
     = Multiply.
Proof.
  intros Hr Hz.
  assert (E : drawLipstick platform app landmarks
              = Throw InvalidStateError
                  (with_ctx app (set_globalAlpha
                                   (set_globalCompositeOperation (ctx app) Multiply)
                                   (opacity app)))).
  { unfold drawLipstick.
    pose proof (drawLipContour_size platform
                  (getContext (createCanvas (width (canvas (ctx app)))
                                            (height (canvas (ctx app)))))
                  landmarks (outerLip (lipLandmarks app))
                  (width (canvas (ctx app))) (height (canvas (ctx app)))) as [Sw Sh].
    destruct (drawLipContour_in_range platform
                (getContext (createCanvas (width (canvas (ctx app)))
                                          (height (canvas (ctx app)))))
                landmarks (outerLip (lipLandmarks app))
                (width (canvas (ctx app))) (height (canvas (ctx app))) Hr)
      as (poly & _ & E).
    rewrite E in *. cbn [state_of] in Sw, Sh. clear E.
    unfold drawImage.
    destruct (0 <? blur app)%Z; autorewrite with canvas_size; rewrite Sw, Sh;
      cbn [getContext createCanvas canvas width height];
      destruct Hz as [-> | ->]; rewrite ?orb_true_r; reflexivity. }
  split; [ exact E | ]. rewrite E.
  cbn [state_of with_ctx ctx]. unfold set_globalAlpha.
  destruct (_ && _)%bool; reflexivity.
Qed.

Lemma drawLipstick_on_empty_canvas_witness :
  drawLipstick sample_platform (ARLipstickApp.constructor (createCanvas 0 2)) triangle_frame
  = Throw InvalidStateError
      (with_ctx (ARLipstickApp.constructor (createCanvas 0 2))
         (set_globalAlpha
            (set_globalCompositeOperation (ctx (ARLipstickApp.constructor (createCanvas 0 2)))
               Multiply)
            (opacity (ARLipstickApp.constructor (createCanvas 0 2)))))
  /\ globalCompositeOperation
       (ctx (state_of (drawLipstick sample_platform (ARLipstickApp.constructor (createCanvas 0 2))
                         triangle_frame)))
     = Multiply.
Proof.
  apply (drawLipstick_on_empty_canvas sample_platform (ARLipstickApp.constructor (createCanvas 0 2))
           triangle_frame).
  - reflexivity.
  - left. reflexivity.
Defined.

(** X23: what a frame never touches. Whatever the result and however the
    call ends, [processFaceMeshResults] leaves the colour, opacity, blur
    and enabled settings, the status, and the size, fill style, filter and
    path of the overlay context as they were: it writes the bitmap, the
    blend mode and the global alpha only. *)
Theorem processFaceMeshResults_writes_only_the_frame
  (platform : Platform) (app : App) (results : Results) :
  exists bitmap op a,
    state_of (processFaceMeshResults platform app results)
    = with_ctx app
        (mkContext (mkCanvas (width (canvas (ctx app))) (height (canvas (ctx app))) bitmap)
                   op a (fillStyle (ctx app)) (filter (ctx app)) (path (ctx app))).
Proof.
  assert (Hc : exists bitmap op a,
             clearCanvas app
             = with_ctx app
                 (mkContext (mkCanvas (width (canvas (ctx app))) (height (canvas (ctx app)))
                                      bitmap)
                            op a (fillStyle (ctx app)) (filter (ctx app)) (path (ctx app)))).
  { rewrite clearCanvas_blank. do 3 eexists. reflexivity. }
  unfold processFaceMeshResults.
  destruct (multiFaceLandmarks results) as [[ | F more] | ]; cbn [state_of]; try exact Hc.
  destruct (isLipstickEnabled (clearCanvas app)); cbn [state_of]; try exact Hc.
  destruct (drawLipstick_state platform (clearCanvas app) F) as (cv' & op' & a' & E).
  destruct (drawLipstick_keeps_size platform (clearCanvas app) F) as [Sw Sh].
  rewrite E in *. rewrite clearCanvas_blank in *.
  cbn [with_ctx ctx canvas with_canvas fillStyle filter path createCanvas width height]
    in *.
  destruct cv' as [w' h' bitmap]. cbn [width height] in Sw, Sh. subst w' h'.
  exists bitmap, op', a'. destruct app. reflexivity.
Qed.

